(** * VoiceNote: the text pipeline and the session state machine

    A shallow embedding of the pure parts of VoiceNote
    ([voice_commands.py], [app_profiles.py], [formatter.py]) and of the
    controller of [main.py], with the properties the specification states
    about them.  The recorder ([recorder.py]), the joining of the transcript
    ([transcriber.py]) and the configuration ([config.py]) are embedded as far
    as the controller uses them, and further properties of all of these are
    proved after those of the specification.

    Python strings are sequences of Unicode code points, and the regular
    expressions of the program look at code points; a text is therefore a
    list of code points, and the [re] module is modelled by a small
    backtracking matcher over such lists. *)

From Stdlib Require Import String Ascii List NArith Bool Arith Lia QArith Sorted.
From stdpp Require Import gmap strings.
Import ListNotations.

(** * The program *)

(** ** Code points and Python string literals *)

Definition char := N.
Definition text := list char.

Definition nl : char := 10%N.
Definition tab : char := 9%N.
Definition backslash : char := 92%N.

Fixpoint bytes_of (s : string) : list N :=
  match s with
  | EmptyString => []
  | String a s' => N_of_ascii a :: bytes_of s'
  end.

(** The escapes of a Python literal that the sources use: backslash-n,
    backslash-t and a doubled backslash. *)
Fixpoint unescape (bs : list N) : list N :=
  match bs with
  | 92%N :: 110%N :: bs' => nl :: unescape bs'
  | 92%N :: 116%N :: bs' => tab :: unescape bs'
  | 92%N :: 92%N :: bs' => backslash :: unescape bs'
  | b :: bs' => b :: unescape bs'
  | [] => []
  end.

(** UTF-8 decoding of the bytes of a source literal into code points. *)
Fixpoint utf8_decode (bs : list N) : text :=
  match bs with
  | [] => []
  | b1 :: bs1 =>
    if (b1 <? 128)%N then b1 :: utf8_decode bs1
    else if (b1 <? 224)%N then
      match bs1 with
      | b2 :: bs2 => ((b1 - 192) * 64 + (b2 - 128))%N :: utf8_decode bs2
      | [] => [b1]
      end
    else if (b1 <? 240)%N then
      match bs1 with
      | b2 :: b3 :: bs3 =>
        ((b1 - 224) * 4096 + (b2 - 128) * 64 + (b3 - 128))%N :: utf8_decode bs3
      | _ => [b1]
      end
    else
      match bs1 with
      | b2 :: b3 :: b4 :: bs4 =>
        ((b1 - 240) * 262144 + (b2 - 128) * 4096 + (b3 - 128) * 64 + (b4 - 128))%N
          :: utf8_decode bs4
      | _ => [b1]
      end
  end.

(** [py s] is the Python string written [s] in the source. *)
Definition py (s : string) : text := utf8_decode (unescape (bytes_of s)).

(** The single character written [s]. *)
Definition ch (s : string) : char := hd 0%N (py s).

(** ** Character classes *)

Definition in_range (lo hi c : N) : bool := ((lo <=? c) && (c <=? hi))%N.

(** [\s] of a [str] pattern, which is also what [str.strip()] removes:
    the code points Python calls whitespace. *)
Definition is_space (c : char) : bool :=
  in_range 9 13 c || in_range 28 32 c || N.eqb c 133 || N.eqb c 160
  || N.eqb c 5760 || in_range 8192 8202 c || N.eqb c 8232 || N.eqb c 8233
  || N.eqb c 8239 || N.eqb c 8287 || N.eqb c 12288.

(** [\d] of a [str] pattern: the decimal digits (Unicode category Nd, as of
    Unicode 14), which come in blocks of ten; the table lists where each
    block starts. *)
Definition digit_blocks : list N :=
  [48; 1632; 1776; 1984; 2406; 2534; 2662; 2790; 2918; 3046; 3174; 3302;
   3430; 3558; 3664; 3792; 3872; 4160; 4240; 6112; 6160; 6470; 6608; 6784;
   6800; 6992; 7088; 7232; 7248; 42528; 43216; 43264; 43472; 43504; 43600;
   44016; 65296; 66720; 68912; 69734; 69872; 69942; 70096; 70384; 70736;
   70864; 71248; 71360; 71472; 71904; 72016; 72784; 73040; 73120; 92768;
   92864; 93008; 120782; 120792; 120802; 120812; 120822; 123200; 123632;
   125264; 130032]%N.

Definition is_digit (c : char) : bool :=
  existsb (fun b => in_range b (b + 9) c) digit_blocks.

Definition is_char (x : char) (c : char) : bool := N.eqb c x.
Definition any_char (_ : char) : bool := true.
(** [.] without [re.DOTALL]. *)
Definition dot (c : char) : bool := negb (N.eqb c nl).
Definition one_of (l : text) (c : char) : bool := existsb (N.eqb c) l.

(** ** Regular expressions

    The constructs the patterns of the program use.  Every quantifier of the
    sources ranges over a single-character class, so [Rep] repeats a class. *)

Inductive regex : Type :=
| Eps
| Chr (c : char)
| Cls (p : char -> bool)
| Bol                       (* ^ under re.MULTILINE *)
| Eol                       (* $ under re.MULTILINE *)
| Bos                       (* ^ without re.MULTILINE *)
| Behind (p : char -> bool) (* (?<=[...]) on one character *)
| Ahead (p : char -> bool)  (* (?=...) on one character *)
| Seq (r1 r2 : regex)
| Alt (r1 r2 : regex)
| Rep (greedy : bool) (p : char -> bool) (lo : nat) (hi : option nat)
| Grp (r : regex).          (* capturing group 1 *)

(** [re.escape(s)] used as a pattern: the characters of [s], literally. *)
Fixpoint lit (s : text) : regex :=
  match s with
  | [] => Eps
  | c :: s' => Seq (Chr c) (lit s')
  end.

Definition span := option (nat * nat).
Definition outcome := option (nat * span).
(** A continuation receives the character before the current position, the
    rest of the subject, the number of characters matched so far and the span
    of group 1. *)
Definition cont := option char -> text -> nat -> span -> outcome.

Definition may_take (hi : option nat) : bool :=
  match hi with Some O => false | _ => true end.
Definition took (hi : option nat) : option nat :=
  match hi with Some h => Some (pred h) | None => None end.

Fixpoint rep_match (greedy : bool) (p : char -> bool) (lo : nat) (hi : option nat)
    (prev : option char) (rest : text) (n : nat) (cap : span) (k : cont)
    {struct rest} : outcome :=
  match rest with
  | c :: rest' =>
    if p c && may_take hi then
      if greedy then
        match rep_match greedy p (pred lo) (took hi) (Some c) rest' (S n) cap k with
        | Some o => Some o
        | None => match lo with O => k prev rest n cap | S _ => None end
        end
      else
        match (match lo with O => k prev rest n cap | S _ => None end) with
        | Some o => Some o
        | None => rep_match greedy p (pred lo) (took hi) (Some c) rest' (S n) cap k
        end
    else match lo with O => k prev rest n cap | S _ => None end
  | [] => match lo with O => k prev rest n cap | S _ => None end
  end.

Fixpoint rmatch (r : regex) (prev : option char) (rest : text) (n : nat)
    (cap : span) (k : cont) {struct r} : outcome :=
  match r with
  | Eps => k prev rest n cap
  | Chr c =>
    match rest with
    | x :: rest' => if N.eqb x c then k (Some x) rest' (S n) cap else None
    | [] => None
    end
  | Cls p =>
    match rest with
    | x :: rest' => if p x then k (Some x) rest' (S n) cap else None
    | [] => None
    end
  | Bol =>
    match prev with
    | None => k prev rest n cap
    | Some x => if N.eqb x nl then k prev rest n cap else None
    end
  | Eol =>
    match rest with
    | [] => k prev rest n cap
    | x :: _ => if N.eqb x nl then k prev rest n cap else None
    end
  | Bos =>
    match prev with
    | None => k prev rest n cap
    | Some _ => None
    end
  | Behind p =>
    match prev with
    | Some x => if p x then k prev rest n cap else None
    | None => None
    end
  | Ahead p =>
    match rest with
    | x :: _ => if p x then k prev rest n cap else None
    | [] => None
    end
  | Seq r1 r2 =>
    rmatch r1 prev rest n cap (fun prev' rest' n' cap' => rmatch r2 prev' rest' n' cap' k)
  | Alt r1 r2 =>
    match rmatch r1 prev rest n cap k with
    | Some o => Some o
    | None => rmatch r2 prev rest n cap k
    end
  | Rep g p lo hi => rep_match g p lo hi prev rest n cap k
  | Grp r1 =>
    rmatch r1 prev rest n cap (fun prev' rest' n' _ => k prev' rest' n' (Some (n, n')))
  end.

(** A match of [r] starting here.  [adv] is the engine's must-advance flag:
    set after an empty match, it refuses another empty match at the same
    place. *)
Definition match_at (r : regex) (prev : option char) (rest : text) (adv : bool) : outcome :=
  rmatch r prev rest 0 None
    (fun _ _ n cap => if adv && Nat.eqb n 0 then None else Some (n, cap)).

(** ** Substitution: [re.sub] and [Pattern.sub]

    The subject is scanned once from left to right.  Where a match starts,
    the matched characters are set aside as a hit and the scan resumes right
    after them ([skip] counts the characters still to pass over); elsewhere
    one character is copied.  After an empty match the engine looks again at
    the same place for a match that is not empty.  Look-behind at the start
    of the next match sees the characters of the subject, not the
    replacement. *)

Inductive piece : Type :=
| PLit (c : char)                 (* a character that is copied *)
| PHit (m : text) (grp : span).   (* a match: its text and its group 1 *)

Fixpoint scan (r : regex) (prev : option char) (rest : text) (skip : nat)
    {struct rest} : list piece :=
  match skip with
  | S k =>
    match rest with
    | c :: rest' => scan r (Some c) rest' k
    | [] => []
    end
  | O =>
    let first := match_at r prev rest false in
    let empty_hit :=
      match first with Some (O, g) => [PHit [] g] | _ => [] end in
    let here :=
      match first with Some (O, _) => match_at r prev rest true | _ => first end in
    match here with
    | Some (S k, g) =>
      empty_hit ++ PHit (firstn (S k) rest) g ::
        match rest with
        | c :: rest' => scan r (Some c) rest' k
        | [] => []
        end
    | _ =>
      empty_hit ++
        match rest with
        | c :: rest' => PLit c :: scan r (Some c) rest' 0
        | [] => []
        end
    end
  end.

(** Replacement templates: literal characters and the reference to group 1
    (backslash-1).  A template without backslash is all literal. *)
Inductive titem : Type :=
| TChr (c : char)
| TGrp1.

Definition literal (s : text) : list titem := map TChr s.

Definition slice {A : Type} (m : list A) (g : span) : list A :=
  match g with
  | Some (a, b) => firstn (b - a) (skipn a m)
  | None => []
  end.

Definition expand_item (m : text) (g : span) (i : titem) : text :=
  match i with
  | TChr c => [c]
  | TGrp1 => slice m g
  end.

Definition expand (tmpl : list titem) (p : piece) : text :=
  match p with
  | PLit c => [c]
  | PHit m g => flat_map (expand_item m g) tmpl
  end.

(** The substitution from a place in the subject on, [prev] being the
    character before it. *)
Definition sub_from (r : regex) (tmpl : list titem) (prev : option char)
    (rest : text) : text :=
  flat_map (expand tmpl) (scan r prev rest 0).

Definition re_sub (r : regex) (tmpl : list titem) (s : text) : text :=
  sub_from r tmpl None s.

(** [re.search] and [Pattern.search], as a truth value: is there a match
    somewhere in the subject. *)
Fixpoint search_from (r : regex) (prev : option char) (rest : text) : bool :=
  match match_at r prev rest false with
  | Some _ => true
  | None =>
    match rest with
    | c :: rest' => search_from r (Some c) rest'
    | [] => false
    end
  end.

Definition re_search (r : regex) (s : text) : bool := search_from r None s.

(** [list.sort(key=..., reverse=True)] and [sorted(..., key=..., reverse=True)]:
    Python sorts are stable, also when reversed, so elements with equal keys
    keep their relative order. *)
Fixpoint insert_desc {A : Type} (key : A -> nat) (x : A) (l : list A) : list A :=
  match l with
  | [] => [x]
  | y :: l' => if key x <? key y then y :: insert_desc key x l' else x :: l
  end.

Definition sort_desc {A : Type} (key : A -> nat) (l : list A) : list A :=
  fold_right (insert_desc key) [] l.

(** [str.strip()], [str.rstrip()] and [str.lstrip(chars)]. *)
Fixpoint lstrip_by (p : char -> bool) (s : text) : text :=
  match s with
  | c :: s' => if p c then lstrip_by p s' else s
  | [] => []
  end.

Definition rstrip_by (p : char -> bool) (s : text) : text :=
  rev (lstrip_by p (rev s)).

Definition str_strip (s : text) : text := rstrip_by is_space (lstrip_by is_space s).

(** [s.startswith(a)]. *)
Fixpoint startswith (a s : text) : bool :=
  match a, s with
  | [], _ => true
  | x :: a', y :: s' => N.eqb x y && startswith a' s'
  | _ :: _, [] => false
  end.

(** [s.replace(old, new)]: the occurrences of [old] are taken from left to
    right, without overlap; [skip] counts the characters of an occurrence
    still to pass over.  With an empty [old], [new] goes before every
    character and at the end. *)
Fixpoint replace_from (old new s : text) (skip : nat) {struct s} : text :=
  match s with
  | [] => []
  | c :: s' =>
    match skip with
    | S k => replace_from old new s' k
    | O =>
      if startswith old s then new ++ replace_from old new s' (pred (length old))
      else c :: replace_from old new s' 0
    end
  end.

Definition str_replace (old new s : text) : text :=
  match old with
  | [] => new ++ flat_map (fun c => c :: new) s
  | _ => replace_from old new s 0
  end.

(** [sep.join(l)]. *)
Fixpoint join (sep : text) (l : list text) : text :=
  match l with
  | [] => []
  | s :: l' =>
    match l' with
    | [] => s
    | _ => s ++ sep ++ join sep l'
    end
  end.

(** ** The plain-text reducer ([app_profiles.py], [_strip_markdown]) *)

Module Reducer.

Definition plus (p : char -> bool) : regex := Rep true p 1 None.
Definition star (p : char -> bool) : regex := Rep true p 0 None.
Definition lazy_plus (p : char -> bool) : regex := Rep false p 1 None.
Definition lazy_star (p : char -> bool) : regex := Rep false p 0 None.

(** The pattern [d(.+?)d] for a delimiter [d]. *)
Definition wrapped (d : text) : regex :=
  Seq (lit d) (Seq (Grp (lazy_plus dot)) (lit d)).

(* ^#{1,6}\s+ *)
Definition heading_re : regex :=
  Seq Bol (Seq (Rep true (is_char (ch "#")) 1 (Some 6)) (plus is_space)).
Definition bold_re : regex := wrapped (py "**").
Definition italic_re : regex := wrapped (py "*").
Definition bold_us_re : regex := wrapped (py "__").
Definition italic_us_re : regex := wrapped (py "_").
Definition inline_code_re : regex := wrapped (py "`").
(* ```[\s\S]*?``` *)
Definition code_block_re : regex :=
  Seq (lit (py "```")) (Seq (lazy_star any_char) (lit (py "```"))).
(* ^[\s]*[-*+]\s+ *)
Definition bullet_re : regex :=
  Seq Bol (Seq (star is_space) (Seq (Cls (one_of (py "-*+"))) (plus is_space))).
(* ^[\s]*\d+\.\s+ *)
Definition numbered_re : regex :=
  Seq Bol (Seq (star is_space) (Seq (plus is_digit) (Seq (Chr (ch ".")) (plus is_space)))).
(* ^>\s+ *)
Definition quote_re : regex := Seq Bol (Seq (Chr (ch ">")) (plus is_space)).
(* ^---+$ *)
Definition rule_re : regex :=
  Seq Bol (Seq (lit (py "--")) (Seq (plus (is_char (ch "-"))) Eol)).
(* \n{3,} *)
Definition blank_lines_re : regex := Rep true (is_char nl) 3 None.

Definition _strip_markdown (t : text) : text :=
  let result := t in
  let result := re_sub heading_re [] result in
  let result := re_sub bold_re [TGrp1] result in
  let result := re_sub italic_re [TGrp1] result in
  let result := re_sub bold_us_re [TGrp1] result in
  let result := re_sub italic_us_re [TGrp1] result in
  let result := re_sub inline_code_re [TGrp1] result in
  let result := re_sub code_block_re [] result in
  let result := re_sub bullet_re [] result in
  let result := re_sub numbered_re [] result in
  let result := re_sub quote_re [] result in
  let result := re_sub rule_re [] result in
  let result := re_sub blank_lines_re (literal (py "\n\n")) result in
  str_strip result.

End Reducer.

(** ** The command transformer ([voice_commands.py]) *)

Module VoiceCommands.

Record rule : Type := Rule { trigger : text; replacement : text }.

Definition cmd (t r : string) : rule := Rule (py t) (py r).

(** [VoiceCommandProcessor.COMMANDS], in source order. *)
Definition COMMANDS : list rule :=
  [ cmd "新しい段落" "\n\n"; cmd "段落変えて" "\n\n"; cmd "段落変え" "\n\n";
    cmd "改行して" "\n"; cmd "改行" "\n";
    cmd "大見出し" "\n\n# "; cmd "見出し3" "\n\n### "; cmd "見出し2" "\n\n## ";
    cmd "見出し1" "\n\n# "; cmd "見出し" "\n\n## "; cmd "小見出し" "\n\n### ";
    cmd "箇条書き開始" "\n\n"; cmd "次の項目" "\n- "; cmd "項目" "\n- ";
    cmd "リスト" "\n- ";
    cmd "コードブロック開始" "\n```\n"; cmd "コードブロック終了" "\n```\n";
    cmd "コード開始" "\n```\n"; cmd "コード終了" "\n```\n";
    cmd "インラインコード" "`";
    cmd "太字開始" "**"; cmd "太字終了" "**"; cmd "太字" "**";
    cmd "斜体開始" "*"; cmd "斜体終了" "*";
    cmd "水平線" "\n\n---\n\n"; cmd "区切り線" "\n\n---\n\n";
    cmd "引用開始" "\n\n> "; cmd "引用" "\n> " ].

(** [self._commands.sort(key=lambda x: len(x[0]), reverse=True)]. *)
Definition sort_rules (l : list rule) : list rule :=
  sort_desc (fun r => length (trigger r)) l.

(** The class [[\s、。，．,.\n]] of the command pattern. *)
Definition is_boundary (c : char) : bool :=
  is_space c || one_of (py "、。，．,.\n") c.

(** [(?:^|(?<=[\s、。，．,.\n]))(cmd_text)(?:[\s、。，．,.\n]|$)] under
    [re.MULTILINE], with [cmd_text] escaped. *)
Definition cmd_pattern (cmd_text : text) : regex :=
  Seq (Alt Bol (Behind is_boundary))
      (Seq (Grp (lit cmd_text)) (Alt (Cls is_boundary) Eol)).

Record processor : Type := Processor {
  enabled : bool;
  _commands : list rule;
  _patterns : list (regex * text * text)
}.

(** [__init__]; an absent or empty [custom_commands] adds nothing.  The
    replacements are used as [re] templates: they are taken literally, which
    is what [re] does with a template that holds no backslash. *)
Definition init (enabled : bool) (custom_commands : list rule) : processor :=
  let commands := sort_rules (custom_commands ++ COMMANDS) in
  Processor enabled commands
    (map (fun r => (cmd_pattern (trigger r), trigger r, replacement r)) commands).

(** [result = pattern.sub(replacement, result)] *)
Definition apply_pattern (result : text) (p : regex * text * text) : text :=
  let '(pattern, _, replacement) := p in
  re_sub pattern (literal replacement) result.

(** The loop of [process] over [self._patterns]. *)
Definition apply_patterns (ps : list (regex * text * text)) (t : text) : text :=
  fold_left apply_pattern ps t.

Definition blank_lines_re : regex := Rep true (is_char nl) 3 None.

Definition process (self : processor) (t : text) : text :=
  if negb (enabled self) || match t with [] => true | _ => false end then t
  else
    let result := apply_patterns (_patterns self) t in
    let result := re_sub blank_lines_re (literal (py "\n\n")) result in
    let result := lstrip_by (is_char nl) result in
    rstrip_by is_space result.

Definition has_commands (self : processor) (t : text) : bool :=
  if negb (enabled self) || match t with [] => true | _ => false end then false
  else existsb (fun p => let '(pattern, _, _) := p in re_search pattern t)
         (_patterns self).

(** An entry of the list that [list_commands] returns. *)
Record command_info : Type := CommandInfo { command : text; description : text }.

(** The description [list_commands] shows for a replacement. *)
Definition describe (replacement : text) : text :=
  let desc := str_replace (py "\n\n") (py "段落区切り") replacement in
  let desc := str_replace (py "\n") (py "改行") desc in
  let desc := str_replace (py "```") (py "コードブロック") desc in
  let desc := str_replace (py "**") (py "太字") desc in
  let desc := str_replace (py "*") (py "斜体") desc in
  let desc := str_replace (py "# ") (py "見出し") desc in
  let desc := str_replace (py "- ") (py "箇条書き") desc in
  let desc := str_replace (py "> ") (py "引用") desc in
  let desc := str_replace (py "---") (py "水平線") desc in
  let desc := str_replace (py "`") (py "コード") desc in
  str_strip desc.

(** The loop of [list_commands], with the set [seen] of the triggers listed
    so far. *)
Fixpoint list_from (seen : gset text) (commands : list rule) : list command_info :=
  match commands with
  | [] => []
  | r :: commands' =>
    if bool_decide (trigger r ∈ seen) then list_from seen commands'
    else
      CommandInfo (trigger r) (describe (replacement r))
        :: list_from ({[trigger r]} ∪ seen) commands'
  end.

Definition list_commands (self : processor) : list command_info :=
  list_from ∅ (_commands self).

End VoiceCommands.

(** ** Exceptions *)

(** The exceptions the program handles are instances of [Exception]; the
    program tells [ImportError] from the others. *)
Inductive exn : Type :=
| ImportError (msg : text)
| Error (msg : text).

Definition str_of (e : exn) : text :=
  match e with ImportError m => m | Error m => m end.

Inductive result (A : Type) : Type :=
| Ok (a : A)
| Raise (e : exn).
Arguments Ok {A} a.
Arguments Raise {A} e.

(** ** Destination profiles ([app_profiles.py]) *)

Module Profiles.

Inductive value : Type :=
| VStr (s : text)
| VBool (b : bool).

(** Python dicts are objects: the profile table holds references to them,
    and [get_profile] returns a reference.  The store maps references to the
    dicts they denote; [next] is the next unused reference. *)
Record store : Type := Store {
  objs : gmap nat (gmap string value);
  next : nat
}.

Definition entry (name mode : string) (strip newline : bool) : gmap string value :=
  <["name" := VStr (py name)]>
    (<["format_mode" := VStr (py mode)]>
      (<["strip_markdown" := VBool strip]>
        (<["add_trailing_newline" := VBool newline]> ∅))).

Definition default_entries : list (string * gmap string value) :=
  [ ("Google Chrome", entry "ブラウザ" "auto" false false);
    ("Safari", entry "Safari" "auto" false false);
    ("Arc", entry "Arc" "auto" false false);
    ("Firefox", entry "Firefox" "auto" false false);
    ("Slack", entry "Slack" "plain" true false);
    ("LINE", entry "LINE" "plain" true false);
    ("Discord", entry "Discord" "auto" false false);
    ("Messages", entry "メッセージ" "plain" true false);
    ("Mail", entry "メール" "plain" true true);
    ("Notes", entry "メモ" "structured" false true);
    ("Notion", entry "Notion" "structured" false false);
    ("Obsidian", entry "Obsidian" "structured" false true);
    ("Code", entry "VS Code" "auto" false true);
    ("Cursor", entry "Cursor" "auto" false true);
    ("Terminal", entry "ターミナル" "plain" true false);
    ("iTerm2", entry "iTerm2" "plain" true false) ]%string.

Fixpoint number_from {A : Type} (i : nat) (l : list A) : list (nat * A) :=
  match l with
  | [] => []
  | x :: l' => (i, x) :: number_from (S i) l'
  end.

(** The module-level [DEFAULT_PROFILES]: keys in source order, each bound to
    the reference of its dict. *)
Definition DEFAULT_PROFILES : list (text * nat) :=
  map (fun ie => (py (fst (snd ie)), fst ie)) (number_from 0 default_entries).

Definition FALLBACK_PROFILE : nat := length default_entries.

(** The store when the module has been loaded. *)
Definition module_store : store :=
  Store
    (<[FALLBACK_PROFILE := entry "デフォルト" "auto" false false]>
      (list_to_map (map (fun ie => (fst ie, snd (snd ie))) (number_from 0 default_entries))))
    (S FALLBACK_PROFILE).

Record manager : Type := Manager {
  enabled : bool;
  _profiles : list (text * nat)
}.

Definition text_eqb (a b : text) : bool := bool_decide (a = b).

Fixpoint table_get (k : text) (t : list (text * nat)) : option nat :=
  match t with
  | [] => None
  | (k', r) :: t' => if text_eqb k k' then Some r else table_get k t'
  end.

(** [d[k] = r] on an insertion-ordered dict. *)
Fixpoint table_set (k : text) (r : nat) (t : list (text * nat)) : list (text * nat) :=
  match t with
  | [] => [(k, r)]
  | (k', r') :: t' =>
    if text_eqb k k' then (k, r) :: t' else (k', r') :: table_set k r t'
  end.

(** [__init__]: [dict(DEFAULT_PROFILES)] copies the table, not the dicts in
    it; [update] then binds the custom keys. *)
Definition init (profiles : list (text * nat)) (enabled : bool) : manager :=
  Manager enabled
    (fold_left (fun t kr => table_set (fst kr) (snd kr) t) profiles DEFAULT_PROFILES).

(** [str.lower()] on the ASCII letters (the keys of the built-in table are
    ASCII); other characters are left as they are. *)
Definition lower (s : text) : text :=
  map (fun c => if in_range 65 90 c then (c + 32)%N else c) s.

Fixpoint starts_with (a s : text) : bool :=
  match a, s with
  | [], _ => true
  | x :: a', y :: s' => N.eqb x y && starts_with a' s'
  | _ :: _, [] => false
  end.

(** [a in s] on strings. *)
Fixpoint contains (a s : text) : bool :=
  starts_with a s || match s with [] => false | _ :: s' => contains a s' end.

(** [profile[k] = v] on the dict that [r] refers to. *)
Definition set_key (st : store) (r : nat) (k : string) (v : value) : store :=
  Store (alter (insert k v) r (objs st)) (next st).

(** [dict(d)]: a new dict with the entries of the one [r] refers to. *)
Definition copy_dict (st : store) (r : nat) : nat * store :=
  (next st,
   Store (<[next st := default ∅ (objs st !! r)]> (objs st)) (S (next st))).

(** [get_profile].  [active_app] is what [get_active_app()] would return
    (the empty string when it fails). *)
Definition get_profile (self : manager) (app_name : option text)
    (active_app : text) (st : store) : nat * store :=
  if negb (enabled self) then (FALLBACK_PROFILE, st)
  else
    let app_name := match app_name with None => active_app | Some a => a end in
    match app_name with
    | [] => (FALLBACK_PROFILE, st)
    | _ =>
      match table_get app_name (_profiles self) with
      | Some profile => (profile, set_key st profile "_app_name" (VStr app_name))
      | None =>
        let app_lower := lower app_name in
        match find (fun kp => contains (lower (fst kp)) app_lower
                              || contains app_lower (lower (fst kp)))
                   (_profiles self) with
        | Some (_, profile) => (profile, set_key st profile "_app_name" (VStr app_name))
        | None =>
          let '(fallback, st') := copy_dict st FALLBACK_PROFILE in
          (fallback, set_key st' fallback "_app_name" (VStr app_name))
        end
      end
    end.

(** Truth value of [d.get(k, False)]. *)
Definition truthy (d : gmap string value) (k : string) : bool :=
  match d !! k with
  | Some (VBool b) => b
  | Some (VStr s) => match s with [] => false | _ => true end
  | None => false
  end.

(** [d.get(k, default)] for a string entry. *)
Definition get_str (d : gmap string value) (k : string) (default : text) : text :=
  match d !! k with
  | Some (VStr s) => s
  | _ => default
  end.

Definition ends_with_nl (s : text) : bool :=
  match rev s with
  | c :: _ => N.eqb c nl
  | [] => false
  end.

Definition apply_profile (t : text) (profile : gmap string value) : text :=
  match t with
  | [] => t
  | _ =>
    let result := t in
    let result :=
      if truthy profile "strip_markdown" then Reducer._strip_markdown result
      else result in
    if truthy profile "add_trailing_newline" then
      if ends_with_nl result then result else result ++ [nl]
    else result
  end.

End Profiles.

(** ** The formatters ([formatter.py]) *)

Module Formatters.

(** What [on_progress] is called with.  Messages that report an elapsed time
    are kept apart: the digits of the time are not modelled. *)
Inductive message : Type :=
| Msg (s : text)
| MsgTimed (s : text).

Definition SYSTEM_PROMPT : text := py
"あなたは日本語の音声書き起こしテキストを整形する専門家です。
整形されたテキストはAIチャット（Claude等）への入力として使用されます。

## 最重要ルール
- **話者が述べた内容は一切省略・要約・削除しない**
- フィラー（えー、うーん等）と明らかな言い直しのみ除去する
- それ以外の情報はすべて残す

## フィラー除去対象
えー、えーと、えっと、あー、あのー、あの、うーん、うん、まぁ、まあ、
そのー、なんか、なんていうか、ほら、ね、さ、同じ言葉の繰り返し（言い直し）

## 文章の整形
- 話し言葉のままで問題ない部分はそのまま残す
- 過度に書き言葉に変換しない
- 話者の意図やニュアンスを維持する

## 内容に応じた整形レベル

**短い発話・会話・簡単な質問や依頼:**
- フィラー除去のみ
- Markdown記法は使わない

**要件定義・タスク指示（複数の条件、仕様、手順を含む内容）:**
- 見出し（##）で話題を区切る
- 条件や要件を箇条書き（-）で整理する
- 技術用語、ファイル名、コマンドは `バッククォート` で囲む

**複数話題の説明:**
- 話題ごとに段落を分ける
- 必要に応じて見出しや箇条書きを使う

## 出力形式
- 余計なメタ情報（「以下は整形結果です」等）は付けない
- 整形後のテキストのみを返す
".

(** The google-genai collaborator, as the outcomes of what the program asks
    of it.  A response carries [response.text], which may be absent. *)
Record remote : Type := Remote {
  (* from google import genai; genai.Client(api_key=...) *)
  new_client : result unit;
  (* from google.genai import types *)
  import_types : result unit;
  (* generate_content(model, contents, config) *)
  generate_with_config : text -> result (option text);
  (* generate_content(model, contents) *)
  generate_plain : text -> result (option text)
}.

Record formatter : Type := Formatter {
  api_key : text;
  model : text;
  _client : bool          (* False while [self._client is None] *)
}.

(** [_get_client]: builds the client on first use and keeps it. *)
Definition _get_client (w : remote) (self : formatter) : result unit * formatter :=
  if _client self then (Ok tt, self)
  else
    match new_client w with
    | Ok _ => (Ok tt, Formatter (api_key self) (model self) true)
    | Raise e => (Raise e, self)
    end.

Definition is_blank (s : text) : bool :=
  match str_strip s with [] => true | _ => false end.

(** [response.text.strip() if response.text else raw_text] *)
Definition text_of (response : option text) (raw_text : text) : text :=
  match response with
  | Some (c :: t) => str_strip (c :: t)
  | _ => raw_text
  end.

Definition notify (on_progress : bool) (m : message) : list message :=
  if on_progress then [m] else [].

(** [Formatter.format_text].  The result comes with the formatter (its client
    may have been built) and the calls made to [on_progress], when the caller
    passed one. *)
Definition format_text (w : remote) (self : formatter) (raw_text : text)
    (on_progress : bool) : result text * formatter * list message :=
  if is_blank raw_text then (Ok [], self, [])
  else
    let log := notify on_progress (Msg (py "テキストを整形中...")) in
    match _get_client w self with
    | (Raise e, self) => (Raise e, self, log)
    | (Ok _, self) =>
      let user_prompt :=
        py "以下の音声書き起こしテキストを整形してください。\n\n" ++ raw_text in
      let api_error e := Msg (py "Gemini API エラー: " ++ str_of e) in
      let attempt :=
        match import_types w with
        | Ok _ => generate_with_config w user_prompt
        | Raise e => Raise e
        end in
      let '(result, log) :=
        match attempt with
        | Ok response => (text_of response raw_text, log)
        | Raise (ImportError _) =>
          match generate_plain w (SYSTEM_PROMPT ++ py "\n\n" ++ user_prompt) with
          | Ok response => (text_of response raw_text, log)
          | Raise e => (raw_text, log ++ notify on_progress (api_error e))
          end
        | Raise e => (raw_text, log ++ notify on_progress (api_error e))
        end in
      (Ok result, self, log ++ notify on_progress (MsgTimed (py "整形完了")))
    end.

(** [OfflineFormatter] *)
Definition FILLERS : list text :=
  map py [ "えーと"; "えっと"; "えー"; "あのー"; "あの";
           "うーん"; "うん"; "まぁ"; "まあ"; "そのー";
           "なんか"; "なんていうか"; "ほら";
           "あー"; "んー"; "んと" ]%string.

(* (?:^|(?<=\s))filler(?:\s*|(?=、|。)) *)
Definition filler_re (filler : text) : regex :=
  Seq (Alt Bos (Behind is_space))
      (Seq (lit filler)
           (Alt (Rep true is_space 0 None) (Ahead (one_of (py "、。"))))).

(* [ 　]+ *)
Definition spaces_re : regex := Rep true (one_of (py " 　")) 1 None.
(* \n\s*\n\s*\n *)
Definition empty_lines_re : regex :=
  Seq (Chr nl) (Seq (Rep true is_space 0 None)
    (Seq (Chr nl) (Seq (Rep true is_space 0 None) (Chr nl)))).

Definition offline_format_text (raw_text : text) (on_progress : bool)
    : text * list message :=
  let text :=
    fold_left (fun t filler => re_sub (filler_re filler) [] t)
      (sort_desc (@length char) FILLERS) raw_text in
  let text := re_sub spaces_re (literal (py " ")) text in
  let text := re_sub empty_lines_re (literal (py "\n\n")) text in
  (str_strip text,
   notify on_progress (Msg (py "テキストを整形中（オフライン）..."))
   ++ notify on_progress (Msg (py "整形完了（オフライン）"))).

End Formatters.

(** ** The transcript ([transcriber.py]) *)

Module Recognition.

(** The text [Transcriber.transcribe] returns, from the texts of the segments
    that the model yields: each one stripped, one per line. *)
Definition transcript (segments : list text) : text :=
  join [nl] (map str_strip segments).

End Recognition.

(** ** The configuration ([config.py]) *)

Module Config.

(** A value of a JSON document, as [json.load] hands it to Python.  Numbers
    that are written with a fraction or an exponent are floats; they are kept
    as the rationals they are written as, the program does not compute with
    them. *)
#[warnings="-register-all"]
Inductive jvalue : Type :=
| JNull
| JBool (b : bool)
| JInt (z : Z)
| JFloat (q : Q)
| JStr (s : text)
| JList (l : list jvalue)
| JDict (d : list (text * jvalue)).

Definition config : Type := gmap string jvalue.

(** [DEFAULT_CONFIG].  The default output directory is the expansion of
    [~/Documents/VoiceNote], which depends on the user. *)
Definition DEFAULT_CONFIG (DEFAULT_OUTPUT_DIR : text) : config :=
  <["gemini_api_key" := JStr []]>
  (<["gemini_model" := JStr (py "gemini-2.0-flash")]>
  (<["whisper_model" := JStr (py "kotoba-tech/kotoba-whisper-v2.0-faster")]>
  (<["output_dir" := JStr DEFAULT_OUTPUT_DIR]>
  (<["auto_copy_clipboard" := JBool true]>
  (<["auto_paste" := JBool true]>
  (<["save_markdown" := JBool true]>
  (<["sample_rate" := JInt 16000]>
  (<["silence_threshold" := JFloat (1 # 100)]>
  (<["silence_duration" := JFloat 3]>
  (<["voice_commands_enabled" := JBool true]>
  (<["app_profiles_enabled" := JBool true]> ∅))))))))))).

(** The configuration file: absent, unreadable ([json.load] raises
    [JSONDecodeError] or another [ValueError]), or holding a JSON object,
    which is what [save_config] writes.  Files that hold another kind of JSON
    document are left out. *)
Inductive config_file : Type :=
| Absent
| Unreadable
| Holds (saved : config).

(** [load_config]: [config = DEFAULT_CONFIG.copy(); config.update(saved)]. *)
Definition load_config (DEFAULT_OUTPUT_DIR : text) (f : config_file) : config :=
  match f with
  | Holds saved => saved ∪ DEFAULT_CONFIG DEFAULT_OUTPUT_DIR
  | _ => DEFAULT_CONFIG DEFAULT_OUTPUT_DIR
  end.

(** [save_config]: the file then holds the object. *)
Definition save_config (c : config) : config_file := Holds c.

(** [open_config] of [main.py], as far as the file goes: the configuration
    is loaded and saved back, which creates the file when it is absent. *)
Definition open_config (DEFAULT_OUTPUT_DIR : text) (f : config_file) : config_file :=
  save_config (load_config DEFAULT_OUTPUT_DIR f).

(** The truth value of a JSON value in Python. *)
Definition truthy (v : jvalue) : bool :=
  match v with
  | JNull => false
  | JBool b => b
  | JInt z => negb (Z.eqb z 0)
  | JFloat q => negb (Qeq_bool q 0)
  | JStr s => match s with [] => false | _ => true end
  | JList l => match l with [] => false | _ => true end
  | JDict d => match d with [] => false | _ => true end
  end.

(** [get_api_key]; [env] is the environment variable [GEMINI_API_KEY], when
    it is set. *)
Definition get_api_key (DEFAULT_OUTPUT_DIR : text) (f : config_file)
    (env : option text) : jvalue :=
  let config := load_config DEFAULT_OUTPUT_DIR f in
  let key := default (JStr []) (config !! "gemini_api_key") in
  if truthy key then key else JStr (default [] env).

End Config.

(** ** The gesture detector ([main.py], [_setup_hotkey]) *)

Module Gesture.

(** Times are [time.time()] readings in seconds, taken as exact rationals. *)
Record detector : Type := Detector {
  _rcmd_press_time : Q;
  _rcmd_last_tap : Q;
  _rcmd_was_pressed : bool
}.

Definition initial : detector := Detector 0 0 false.

Definition TAP_THRESHOLD : Q := 1 # 4.        (* 0.25 *)
Definition DOUBLE_TAP_INTERVAL : Q := 1 # 2.  (* 0.5 *)
Definition CMD_FLAG : N := 1048576.           (* 0x00100000 *)
Definition RIGHT_CMD_FLAG : N := 16.          (* 0x00000010 *)

Definition Qltb (x y : Q) : bool := negb (Qle_bool y x).

(** [flags_changed_callback]: the flags of the event and the clock when it
    is handled; the boolean tells whether [toggle_recording] was called. *)
Definition flags_changed_callback (self : detector) (flags : N) (now : Q)
    : detector * bool :=
  let rcmd_pressed :=
    negb (N.eqb (N.land flags CMD_FLAG) 0)
    && negb (N.eqb (N.land flags RIGHT_CMD_FLAG) 0) in
  let '(press_time, last_tap, fired) :=
    if rcmd_pressed && negb (_rcmd_was_pressed self) then
      (now, _rcmd_last_tap self, false)
    else if negb rcmd_pressed && _rcmd_was_pressed self then
      if Qltb (now - _rcmd_press_time self) TAP_THRESHOLD then
        if Qltb (now - _rcmd_last_tap self) DOUBLE_TAP_INTERVAL then
          (_rcmd_press_time self, 0%Q, true)
        else (_rcmd_press_time self, now, false)
      else (_rcmd_press_time self, _rcmd_last_tap self, false)
    else (_rcmd_press_time self, _rcmd_last_tap self, false) in
  (Detector press_time last_tap rcmd_pressed, fired).

(** The detector over a stream of events; the result lists, event by event,
    whether a trigger was emitted. *)
Fixpoint run (self : detector) (events : list (N * Q)) : detector * list bool :=
  match events with
  | [] => (self, [])
  | (flags, now) :: events' =>
    let '(self1, fired) := flags_changed_callback self flags now in
    let '(self2, rest) := run self1 events' in
    (self2, fired :: rest)
  end.

Definition PRESSED : N := N.lor CMD_FLAG RIGHT_CMD_FLAG.
Definition RELEASED : N := 0.

End Gesture.

(** ** The session controller ([main.py], [recorder.py]) *)

Module Session.

Import Formatters.

Inductive icon : Type := ICON_IDLE | ICON_RECORDING | ICON_PROCESSING.

(** [AudioRecorder]; frames are opaque.  The audio device is taken to open
    and close without error. *)
Record audio_recorder : Type := AudioRecorder {
  rec_recording : bool;
  _frames : list nat;
  _stream : bool
}.

Record transcriber : Type := Transcriber { is_loaded : bool }.

(** The application object, with what it has done to the outside: the
    notifications shown, the clipboard, the paste keystrokes sent, the files
    saved, the background threads started (each with its audio path) and the
    temporary audio files that exist. *)
Record app : Type := App {
  title : icon;
  record_button_title : text;
  status_item_title : message;
  _recording : bool;
  _processing : bool;
  _transcriber_loading : bool;
  _transcriber : option transcriber;
  _formatter : option formatter;
  recorder : audio_recorder;
  profile_store : Profiles.store;
  notifications : list (text * text * text);
  clipboard : option text;
  pastes : nat;
  saved : list text;
  threads : list text;
  temp_files : list text
}.

Definition set_title (x : icon) (a : app) : app :=
  App x (record_button_title a) (status_item_title a) (_recording a) (_processing a) (_transcriber_loading a) (_transcriber a) (_formatter a) (recorder a) (profile_store a) (notifications a) (clipboard a) (pastes a) (saved a) (threads a) (temp_files a).

Definition set_record_button_title (x : text) (a : app) : app :=
  App (title a) x (status_item_title a) (_recording a) (_processing a) (_transcriber_loading a) (_transcriber a) (_formatter a) (recorder a) (profile_store a) (notifications a) (clipboard a) (pastes a) (saved a) (threads a) (temp_files a).

Definition set_status_item_title (x : message) (a : app) : app :=
  App (title a) (record_button_title a) x (_recording a) (_processing a) (_transcriber_loading a) (_transcriber a) (_formatter a) (recorder a) (profile_store a) (notifications a) (clipboard a) (pastes a) (saved a) (threads a) (temp_files a).

Definition set_recording (x : bool) (a : app) : app :=
  App (title a) (record_button_title a) (status_item_title a) x (_processing a) (_transcriber_loading a) (_transcriber a) (_formatter a) (recorder a) (profile_store a) (notifications a) (clipboard a) (pastes a) (saved a) (threads a) (temp_files a).

Definition set_processing (x : bool) (a : app) : app :=
  App (title a) (record_button_title a) (status_item_title a) (_recording a) x (_transcriber_loading a) (_transcriber a) (_formatter a) (recorder a) (profile_store a) (notifications a) (clipboard a) (pastes a) (saved a) (threads a) (temp_files a).

Definition set_transcriber_loading (x : bool) (a : app) : app :=
  App (title a) (record_button_title a) (status_item_title a) (_recording a) (_processing a) x (_transcriber a) (_formatter a) (recorder a) (profile_store a) (notifications a) (clipboard a) (pastes a) (saved a) (threads a) (temp_files a).

Definition set_transcriber (x : option transcriber) (a : app) : app :=
  App (title a) (record_button_title a) (status_item_title a) (_recording a) (_processing a) (_transcriber_loading a) x (_formatter a) (recorder a) (profile_store a) (notifications a) (clipboard a) (pastes a) (saved a) (threads a) (temp_files a).

Definition set_formatter (x : option formatter) (a : app) : app :=
  App (title a) (record_button_title a) (status_item_title a) (_recording a) (_processing a) (_transcriber_loading a) (_transcriber a) x (recorder a) (profile_store a) (notifications a) (clipboard a) (pastes a) (saved a) (threads a) (temp_files a).

Definition set_recorder (x : audio_recorder) (a : app) : app :=
  App (title a) (record_button_title a) (status_item_title a) (_recording a) (_processing a) (_transcriber_loading a) (_transcriber a) (_formatter a) x (profile_store a) (notifications a) (clipboard a) (pastes a) (saved a) (threads a) (temp_files a).

Definition set_profile_store (x : Profiles.store) (a : app) : app :=
  App (title a) (record_button_title a) (status_item_title a) (_recording a) (_processing a) (_transcriber_loading a) (_transcriber a) (_formatter a) (recorder a) x (notifications a) (clipboard a) (pastes a) (saved a) (threads a) (temp_files a).

Definition set_notifications (x : list (text * text * text)) (a : app) : app :=
  App (title a) (record_button_title a) (status_item_title a) (_recording a) (_processing a) (_transcriber_loading a) (_transcriber a) (_formatter a) (recorder a) (profile_store a) x (clipboard a) (pastes a) (saved a) (threads a) (temp_files a).

Definition set_clipboard (x : option text) (a : app) : app :=
  App (title a) (record_button_title a) (status_item_title a) (_recording a) (_processing a) (_transcriber_loading a) (_transcriber a) (_formatter a) (recorder a) (profile_store a) (notifications a) x (pastes a) (saved a) (threads a) (temp_files a).

Definition set_pastes (x : nat) (a : app) : app :=
  App (title a) (record_button_title a) (status_item_title a) (_recording a) (_processing a) (_transcriber_loading a) (_transcriber a) (_formatter a) (recorder a) (profile_store a) (notifications a) (clipboard a) x (saved a) (threads a) (temp_files a).

Definition set_saved (x : list text) (a : app) : app :=
  App (title a) (record_button_title a) (status_item_title a) (_recording a) (_processing a) (_transcriber_loading a) (_transcriber a) (_formatter a) (recorder a) (profile_store a) (notifications a) (clipboard a) (pastes a) x (threads a) (temp_files a).

Definition set_threads (x : list text) (a : app) : app :=
  App (title a) (record_button_title a) (status_item_title a) (_recording a) (_processing a) (_transcriber_loading a) (_transcriber a) (_formatter a) (recorder a) (profile_store a) (notifications a) (clipboard a) (pastes a) (saved a) x (temp_files a).

Definition set_temp_files (x : list text) (a : app) : app :=
  App (title a) (record_button_title a) (status_item_title a) (_recording a) (_processing a) (_transcriber_loading a) (_transcriber a) (_formatter a) (recorder a) (profile_store a) (notifications a) (clipboard a) (pastes a) (saved a) (threads a) x.

(** What does not change while the application runs (the configuration, the
    command processor, the profile manager) and what the collaborators
    answer during one run. *)
Record world : Type := World {
  auto_paste : bool;
  save_markdown : bool;
  voice_cmd : VoiceCommands.processor;
  profile_mgr : Profiles.manager;
  whisper_model : text;
  tmp_name : text;                      (* the name [stop] gives the WAV file *)
  import_whisper : result unit;         (* from faster_whisper import WhisperModel *)
  new_model : result unit;              (* WhisperModel(...) *)
  transcribe : text -> result text;     (* the text recognised in a file *)
  active_app : text;                    (* [get_active_app()] *)
  gemini : remote;
  pyperclip_copy : text -> result unit; (* import pyperclip; pyperclip.copy(text) *)
  pbcopy : text -> result unit;         (* the pbcopy subprocess *)
  save : text -> result text;           (* writing the Markdown file *)
  unlink : text -> bool                 (* [os.unlink] succeeds *)
}.

Definition IDLE_BUTTON : text := py "録音開始 (右⌘×2)".

Definition notification (t s m : text) (a : app) : app :=
  set_notifications (notifications a ++ [(t, s, m)]) a.

Definition _update_status (m : message) (a : app) : app := set_status_item_title m a.

(** [AudioRecorder.start] *)
Definition start (r : audio_recorder) : audio_recorder :=
  if rec_recording r then r else AudioRecorder true [] true.

(** [_audio_callback]: a frame arrives from the device. *)
Definition _audio_callback (frame : nat) (r : audio_recorder) : audio_recorder :=
  if rec_recording r then AudioRecorder true (_frames r ++ [frame]) (_stream r) else r.

(** [AudioRecorder.stop]: the path of the file written, empty when nothing
    was recorded. *)
Definition stop (w : world) (r : audio_recorder) : text * audio_recorder :=
  if negb (rec_recording r) then ([], r)
  else
    let r := AudioRecorder false (_frames r) false in
    match _frames r with
    | [] => ([], r)
    | _ => (tmp_name w, r)
    end.

(** [AudioRecorder.cleanup]; an [OSError] of [os.unlink] is swallowed. *)
Definition cleanup (w : world) (filepath : text) (a : app) : app :=
  match filepath with
  | [] => a
  | _ =>
    if existsb (Profiles.text_eqb filepath) (temp_files a) && unlink w filepath then
      set_temp_files (List.filter (fun f => negb (Profiles.text_eqb filepath f)) (temp_files a)) a
    else a
  end.

Definition _start_recording (a : app) : app :=
  let a := set_recording true a in
  let a := set_title ICON_RECORDING a in
  let a := set_record_button_title (py "録音停止 (右⌘×2)") a in
  let a := _update_status (Msg (py "録音中...")) a in
  set_recorder (start (recorder a)) a.

Definition _stop_recording (w : world) (a : app) : app :=
  let a := set_recording false a in
  let a := set_title ICON_PROCESSING a in
  let a := set_record_button_title (py "処理中...") a in
  let a := _update_status (Msg (py "録音停止、処理開始...")) a in
  let '(audio_path, r) := stop w (recorder a) in
  let a := set_recorder r a in
  match audio_path with
  | [] =>
    let a := set_title ICON_IDLE a in
    let a := set_record_button_title IDLE_BUTTON a in
    _update_status (Msg (py "録音データがありません")) a
  | _ =>
    let a := set_temp_files (audio_path :: temp_files a) a in
    let a := set_processing true a in
    set_threads (threads a ++ [audio_path]) a
  end.

(** The phase of the session, read off the two flags. *)
Inductive phase : Type := Idle | Capturing | Processing.

Definition phase_of (a : app) : phase :=
  if _processing a then Processing
  else if _recording a then Capturing
  else Idle.

(** The application as [__init__] leaves it. *)
Definition start_app (f : option formatter) : app :=
  App ICON_IDLE IDLE_BUTTON (Msg (py "待機中")) false false false None f
    (AudioRecorder false [] false) Profiles.module_store [] None 0 [] [] [].

Definition BUSY : text * text * text :=
  (py "VoiceNote", [], py "処理中です。しばらくお待ちください。").

(** [toggle_recording], the handler of the menu item and of the double tap. *)
Definition toggle_recording (w : world) (a : app) : app :=
  if _processing a then
    notification (py "VoiceNote") [] (py "処理中です。しばらくお待ちください。") a
  else if _transcriber_loading a then
    notification (py "VoiceNote") []
      (py "モデルを読み込み中です。しばらくお待ちください。") a
  else if negb (_recording a) then _start_recording a
  else _stop_recording w a.

(** The key listener: a flags-changed event goes through the detector, and a
    double tap calls [toggle_recording]. *)
Definition on_flags_changed (w : world) (flags : N) (now : Q)
    (da : Gesture.detector * app) : Gesture.detector * app :=
  let '(d, fired) := Gesture.flags_changed_callback (fst da) flags now in
  (d, if fired then toggle_recording w (snd da) else snd da).

(** *** The processing thread

    A computation on the application that returns or raises. *)
Definition M (A : Type) : Type := app -> result A * app.

Definition ret {A : Type} (x : A) : M A := fun a => (Ok x, a).
Definition raise {A : Type} (e : exn) : M A := fun a => (Raise e, a).
Definition bind {A B : Type} (m : M A) (f : A -> M B) : M B :=
  fun a => match m a with
           | (Ok x, a') => f x a'
           | (Raise e, a') => (Raise e, a')
           end.
Definition lift (f : app -> app) : M unit := fun a => (Ok tt, f a).
Definition get {A : Type} (f : app -> A) : M A := fun a => (Ok (f a), a).
Definition of_result {A : Type} (r : result A) : M A := fun a => (r, a).

#[export] Instance M_ret : MRet M := @ret.
#[export] Instance M_bind : MBind M := fun A B f m => bind m f.

(** [try: body except Exception as e: handler(e)] *)
Definition try_except {A : Type} (body : M A) (handler : exn -> M A) : M A :=
  fun a => match body a with
           | (Ok x, a') => (Ok x, a')
           | (Raise e, a') => handler e a'
           end.

(** [try: body finally: final]; the final block runs whatever the body did,
    and an exception of the body goes on after it. *)
Definition try_finally {A : Type} (body : M A) (final : M unit) : M A :=
  fun a => match body a with
           | (r, a') =>
             match final a' with
             | (Ok _, a'') => (r, a'')
             | (Raise e, a'') => (Raise e, a'')
             end
           end.

Definition progress (ms : list message) : M unit :=
  lift (fun a => fold_left (fun a m => _update_status m a) ms a).

(** [Transcriber.load_model], with [on_progress=self._update_status]. *)
Definition do_load_model (w : world) : M unit :=
  of_result (import_whisper w);;
  lift (_update_status
          (Msg (py "Whisperモデル (" ++ whisper_model w ++ py ") を読み込み中...")));;
  of_result (new_model w);;
  lift (set_transcriber (Some (Transcriber true)));;
  lift (_update_status (MsgTimed (py "モデル読み込み完了"))).

(** [Transcriber.transcribe] *)
Definition do_transcribe (w : world) (audio_path : text) : M text :=
  t ← get _transcriber;
  (match t with
   | Some (Transcriber true) => ret tt
   | _ => do_load_model w
   end);;
  lift (_update_status (Msg (py "音声を認識中...")));;
  result ← of_result (transcribe w audio_path);
  lift (_update_status (MsgTimed (py "認識完了")));;
  ret result.

(** [_copy_to_clipboard]; on an [ImportError] the copy goes through pbcopy,
    and a failure there is only printed. *)
Definition _copy_to_clipboard (w : world) (t : text) : M unit :=
  match pyperclip_copy w t with
  | Ok _ => lift (set_clipboard (Some t))
  | Raise (ImportError _) =>
    match pbcopy w t with
    | Ok _ => lift (set_clipboard (Some t))
    | Raise _ => ret tt
    end
  | Raise e => raise e
  end.

(** [_paste_to_active_app]: one more paste keystroke asked of the system;
    every failure is caught and printed. *)
Definition _paste_to_active_app : M unit :=
  lift (fun a => set_pastes (S (pastes a)) a).

Definition _save_markdown (w : world) (t : text) : M text :=
  filepath ← of_result (save w t);
  lift (fun a => set_saved (saved a ++ [filepath]) a);;
  ret filepath.

(** [self._profile_mgr.get_profile()]: the reference of the profile. *)
Definition resolve_profile (w : world) : M nat :=
  fun a =>
    let '(profile, st) :=
      Profiles.get_profile (profile_mgr w) None (active_app w) (profile_store a) in
    (Ok profile, set_profile_store st a).

Definition format_with_gemini (w : world) (f : formatter) (t : text) : M text :=
  fun a =>
    let '(r, f', log) := format_text (gemini w) f t true in
    let a := set_formatter (Some f') a in
    (r, fold_left (fun a m => _update_status m a) log a).

(** The body of the [try] of [_process_audio]. *)
Definition pipeline (w : world) (audio_path : text) : M unit :=
  t ← get _transcriber;
  (match t with
   | Some (Transcriber true) => ret tt
   | _ =>
     lift (_update_status (Msg (py "Whisperモデルを読み込み中...")));;
     lift (set_transcriber (Some (Transcriber false)));;
     do_load_model w
   end);;
  raw_text ← do_transcribe w audio_path;
  if is_blank raw_text then
    lift (_update_status (Msg (py "音声が検出されませんでした")));;
    lift (notification (py "VoiceNote") [] (py "音声が検出されませんでした。"))
  else
    let processed_text := VoiceCommands.process (voice_cmd w) raw_text in
    profile ← resolve_profile w;
    d ← get (fun a => default ∅ (Profiles.objs (profile_store a) !! profile));
    let app_name := Profiles.get_str d "_app_name" [] in
    (match app_name with
     | [] => ret tt
     | _ => lift (_update_status
                    (Msg (py "出力先: " ++ Profiles.get_str d "name" app_name)))
     end);;
    f ← get _formatter;
    formatted_text ←
      (match f with
       | Some f =>
         if 100 <=? length processed_text then format_with_gemini w f processed_text
         else
           let '(t, log) := offline_format_text processed_text true in
           progress log;; ret t
       | None =>
         let '(t, log) := offline_format_text processed_text true in
         progress log;; ret t
       end);
    let formatted_text := Profiles.apply_profile formatted_text d in
    _copy_to_clipboard w formatted_text;;
    (if auto_paste w then
       _paste_to_active_app;;
       lift (_update_status (Msg (py "テキストを入力しました")))
     else lift (_update_status (Msg (py "クリップボードにコピーしました"))));;
    (if save_markdown w then _save_markdown w formatted_text;; ret tt
     else ret tt);;
    let preview :=
      if 80 <? length formatted_text then firstn 80 formatted_text ++ py "..."
      else firstn 80 formatted_text in
    lift (notification (py "VoiceNote") (py "書き起こし完了") preview);;
    lift (_update_status (Msg (py "待機中"))).

(** [_process_audio], run by the thread that [_stop_recording] started. *)
Definition _process_audio (w : world) (audio_path : text) : M unit :=
  try_finally
    (try_except (pipeline w audio_path)
       (fun e =>
          lift (_update_status (Msg (py "エラー: " ++ str_of e)));;
          lift (notification (py "VoiceNote") (py "エラー") (firstn 100 (str_of e)))))
    (lift (set_processing false);;
     lift (set_title ICON_IDLE);;
     lift (set_record_button_title IDLE_BUTTON);;
     lift (cleanup w audio_path)).

(** [_preload_model_async], run by the thread that [__init__] and
    [preload_model] start. *)
Definition _preload_model_async (w : world) : M unit :=
  lift (set_transcriber_loading true);;
  lift (_update_status (Msg (py "Whisperモデル読み込み中...")));;
  try_finally
    (try_except
       (lift (set_transcriber (Some (Transcriber false)));;
        do_load_model w;;
        lift (_update_status (Msg (py "待機中"))))
       (fun e =>
          lift (_update_status (Msg (py "モデル読み込みエラー: " ++ str_of e)))))
    (lift (set_transcriber_loading false)).

(** [preload_model], the handler of the menu item; the boolean tells whether
    it started the thread of [_preload_model_async]. *)
Definition preload_model (a : app) : app * bool :=
  match _transcriber a with
  | Some (Transcriber true) =>
    (notification (py "VoiceNote") [] (py "モデルは既に読み込み済みです。") a, false)
  | _ =>
    if _transcriber_loading a then
      (notification (py "VoiceNote") [] (py "モデルを読み込み中です。") a, false)
    else (a, true)
  end.

End Session.

(** * Words for the properties *)

(** ** The matcher and the command pattern *)

Section MatcherWords.
Import VoiceCommands.

(** The character before the position reached after reading [s]. *)
Definition last_of (prev : option char) (s : text) : option char :=
  fold_left (fun _ c => Some c) s prev.

(** [rest] without its prefix [s], when it starts with [s]. *)
Fixpoint strip_prefix (s rest : text) : option text :=
  match s with
  | [] => Some rest
  | c :: s' =>
    match rest with
    | x :: rest' => if N.eqb x c then strip_prefix s' rest' else None
    | [] => None
    end
  end.

(** The position is one where the command pattern may start: the start of
    the text or of a line, or just after a boundary character. *)
Definition boundary_before (prev : option char) : bool :=
  match prev with
  | None => true
  | Some x => is_boundary x
  end.

(** What the command pattern of [trig] matches at a position, spelled out. *)
Definition cmd_match (trig : text) (prev : option char) (rest : text)
    (adv : bool) : outcome :=
  if boundary_before prev then
    match strip_prefix trig rest with
    | Some (x :: _) =>
      if is_boundary x then Some (S (length trig), Some (0, length trig)) else None
    | Some [] =>
      if adv && Nat.eqb (length trig) 0 then None
      else Some (length trig, Some (0, length trig))
    | None => None
    end
  else None.

(** [s] holds no boundary character. *)
Definition plain (s : text) : Prop := Forall (fun x => is_boundary x = false) s.

Definition plainb (s : text) : bool := forallb (fun x => negb (is_boundary x)) s.



End MatcherWords.

(** ** The order of a list *)

Section OrderWords.


(** Keys do not grow along the list. *)
Definition sorted_desc {A : Type} (key : A -> nat) (l : list A) : Prop :=
  StronglySorted (fun a b => key b <= key a) l.

End OrderWords.

(** ** Marked texts *)

Section MarksWords.
Import VoiceCommands.

(** A text in which the characters that a substitution has put in are
    marked. *)
Definition marked : Type := list (char * bool).






(** No character of a replacement occurs in a trigger. *)
Definition separate (rules : list rule) : bool :=
  forallb (fun r1 =>
    forallb (fun c =>
      forallb (fun r2 => negb (one_of (trigger r2) c)) rules)
      (replacement r1)) rules.


(** Every marked character is one of [R]. *)
Definition marks_in (R : char -> Prop) (mt : marked) : Prop :=
  forall c, In (c, true) mt -> R c.


End MarksWords.

(** ** The reducer *)

Section ReducerWords.
Import Reducer.

(** [s] holds no character of the class [X]. *)
Definition free_of (X : char -> bool) (s : text) : Prop :=
  Forall (fun c => X c = false) s.

(** Every match of the pattern holds a character of the class [X]. *)
Inductive needs (X : char -> bool) : regex -> Prop :=
| needs_chr (c : char) : X c = true -> needs X (Chr c)
| needs_cls (p : char -> bool) :
    (forall c, p c = true -> X c = true) -> needs X (Cls p)
| needs_seq_l (r1 r2 : regex) : needs X r1 -> needs X (Seq r1 r2)
| needs_seq_r (r1 r2 : regex) : needs X r2 -> needs X (Seq r1 r2)
| needs_alt (r1 r2 : regex) : needs X r1 -> needs X r2 -> needs X (Alt r1 r2)
| needs_rep (g : bool) (p : char -> bool) (lo : nat) (hi : option nat) :
    (forall c, p c = true -> X c = true) -> needs X (Rep g p (S lo) hi)
| needs_grp (r : regex) : needs X r -> needs X (Grp r).

(** [s'] is what is left of [s] after some of its first characters. *)
Definition suffix_of (s' s : text) : Prop := exists pre, s = pre ++ s'.

(** The number of newlines the text starts with. *)
Fixpoint lead (s : text) : nat :=
  match s with
  | c :: s' => if N.eqb c nl then S (lead s') else 0
  | [] => 0
  end.

(** No three newlines in a row. *)
Fixpoint run_free (s : text) : Prop :=
  match s with
  | [] => True
  | _ :: s' => lead s < 3 /\ run_free s'
  end.

(** The continuation that ends a match ([match_at]). *)
Definition final (adv : bool) : cont :=
  fun _ _ n cap => if adv && Nat.eqb n 0 then None else Some (n, cap).

(** [s] does not start with a character of [p]. *)
Definition head_ok (p : char -> bool) (s : text) : Prop :=
  match s with
  | c :: _ => p c = false
  | [] => True
  end.

(** The characters that the patterns of the reducer look for. *)
Definition marker (c : char) : bool := one_of (py "#*_`-+>.") c.

Definition markup_free (s : text) : bool := forallb (fun c => negb (marker c)) s.

(** The patterns of the reducer that look for markup, in the order of
    [_strip_markdown]. *)
Definition markup_patterns : list regex :=
  [ heading_re; bold_re; italic_re; bold_us_re; italic_us_re; inline_code_re;
    code_block_re; bullet_re; numbered_re; quote_re; rule_re ].

(** None of them matches anywhere in [s]. *)
Definition settled (s : text) : bool :=
  forallb (fun r => negb (re_search r s)) markup_patterns.

End ReducerWords.

(** ** Profiles, formatter and detector *)

Section OthersWords.

(** The [_app_name] entry of the dict that [r] refers to. *)
Definition app_name_of (st : Profiles.store) (r : nat) : option Profiles.value :=
  Profiles.objs st !! r ≫= (fun d => d !! "_app_name"%string).

(** The requests of [format_text]: the one of the [try], and the one it
    makes after an [ImportError]. *)
Definition user_prompt (raw_text : text) : text :=
  py "以下の音声書き起こしテキストを整形してください。\n\n" ++ raw_text.

Definition first_request (w : Formatters.remote) (raw_text : text)
    : result (option text) :=
  match Formatters.import_types w with
  | Ok _ => Formatters.generate_with_config w (user_prompt raw_text)
  | Raise e => Raise e
  end.

Definition second_request (w : Formatters.remote) (raw_text : text)
    : result (option text) :=
  Formatters.generate_plain w
    (Formatters.SYSTEM_PROMPT ++ py "\n\n" ++ user_prompt raw_text).

(** A collaborator whose client cannot be built (the google-genai package is
    missing, say); the other answers are never asked for. *)
Definition no_client : Formatters.remote :=
  Formatters.Remote (Raise (ImportError (py "No module named google")))
    (Ok tt) (fun _ => Ok None) (fun _ => Ok None).

(** A tap, a press held for 0.27 s and a second tap, all within half a
    second of the release of the first tap. *)
Definition tap_hold_tap : list (N * Q) :=
  [ (Gesture.PRESSED, 100); (Gesture.RELEASED, 100 + (1 # 10));
    (Gesture.PRESSED, 100 + (15 # 100)); (Gesture.RELEASED, 100 + (42 # 100));
    (Gesture.PRESSED, 100 + (45 # 100)); (Gesture.RELEASED, 100 + (1 # 2)) ]%Q.

End OthersWords.

(** ** The session *)

Section SessionWords.
Import Session.

(** A world in which every collaborator answers. *)
Definition calm_world : world :=
  World true true (VoiceCommands.init true []) (Profiles.init [] true)
    (py "large-v3") (py "/tmp/voicenote_1.wav")
    (Ok tt) (Ok tt) (fun _ => Ok (py "改行 テスト"))
    (py "Slack")
    (Formatters.Remote (Ok tt) (Ok tt) (fun _ => Ok None) (fun _ => Ok None))
    (fun _ => Ok tt) (fun _ => Ok tt)
    (fun _ => Ok (py "/out/note.md")) (fun _ => true).

(** A run in which the transcription raises. *)
Definition failing_world : world :=
  World true true (VoiceCommands.init true []) (Profiles.init [] true)
    (py "large-v3") (py "/tmp/voicenote_1.wav")
    (Ok tt) (Ok tt) (fun _ => Raise (Error (py "decode failed")))
    (py "Slack")
    (Formatters.Remote (Ok tt) (Ok tt) (fun _ => Ok None) (fun _ => Ok None))
    (fun _ => Ok tt) (fun _ => Ok tt)
    (fun _ => Ok (py "/out/note.md")) (fun _ => true).

(** The application when [_stop_recording] has started the thread. *)
Definition after_stop : app :=
  set_threads [py "/tmp/voicenote_1.wav"]
    (set_temp_files [py "/tmp/voicenote_1.wav"]
      (set_processing true (set_title ICON_PROCESSING (start_app None)))).

(** What the processing thread leaves alone: the recording flag, the
    model-loading flag and the list of temporary files. *)
Definition same_frame (a a' : app) : Prop :=
  _recording a' = _recording a
  /\ _transcriber_loading a' = _transcriber_loading a
  /\ temp_files a' = temp_files a.

Definition keeps {A : Type} (m : M A) : Prop :=
  forall a, same_frame a (snd (m a)).

End SessionWords.

(** ** Occurrences of a trigger *)

Section OccurrenceWords.
Import VoiceCommands.

(** What follows is the end of the text or starts with a boundary
    character. *)
Definition boundary_after (post : text) : bool :=
  match post with
  | [] => true
  | x :: _ => is_boundary x
  end.

(** [trig] stands in [t] as a word of its own: at the start of the text or
    after a boundary character, and before a boundary character or the end
    of the text. *)
Definition stands_alone (trig t : text) : Prop :=
  exists pre post,
    t = pre ++ trig ++ post
    /\ boundary_before (last_of None pre) = true
    /\ boundary_after post = true.

End OccurrenceWords.

(** ** Names of applications *)

Section NameWords.

(** [s] holds ASCII characters only; on such a text [str.lower()] lowers
    the letters A to Z and nothing else. *)
Definition ascii_only (s : text) : bool := forallb (fun c => (c <? 128)%N) s.

(** The test of the partial match of [get_profile]: the lowered key is in
    the lowered name, or the lowered name in the lowered key. *)
Definition partial_match (app_lower : text) (kp : text * nat) : bool :=
  Profiles.contains (Profiles.lower (fst kp)) app_lower
  || Profiles.contains app_lower (Profiles.lower (fst kp)).

(** The key [k] is ASCII, is not [name], and the partial match of
    [get_profile] does not hold between the two. *)
Definition unrelated (name : text) (kp : text * nat) : bool :=
  ascii_only (fst kp)
  && negb (Profiles.text_eqb (fst kp) name)
  && negb (partial_match (Profiles.lower name) kp).

(** Every reference of the table denotes a dict of the store. *)
Definition live (st : Profiles.store) (self : Profiles.manager) : Prop :=
  Forall (fun kp => is_Some (Profiles.objs st !! snd kp)) (Profiles._profiles self).

End NameWords.

(** ** Keys, frames and collaborators *)

Section RunWords.
Import Session.

(** The flags of an event in which the left Command key alone is down: the
    Command mask and the device mask of the left key. *)
Definition LEFT_CMD_DOWN : N := N.lor Gesture.CMD_FLAG 8.

(** The frames that the audio device delivers, one call of
    [_audio_callback] each, to the recorder of the application. *)
Definition feed (frames : list nat) (a : app) : app :=
  fold_left (fun a frame => set_recorder (_audio_callback frame (recorder a)) a)
    frames a.

(** The same world with another remote formatting service. *)
Definition with_gemini (g : Formatters.remote) (w : world) : world :=
  World (auto_paste w) (save_markdown w) (voice_cmd w) (profile_mgr w)
    (whisper_model w) (tmp_name w) (import_whisper w) (new_model w)
    (transcribe w) (active_app w) g (pyperclip_copy w) (pbcopy w) (save w)
    (unlink w).

(** What the run has put out: the clipboard, the paste keystrokes and the
    files saved. *)
Definition output (a : app) : option text * nat * list text :=
  (clipboard a, pastes a, saved a).

End RunWords.

(** * Properties *)

(** ** Destination profiles *)

Section ProfileFacts.
Import Profiles.

(** C4 (the code departs from the claim).  Resolving "Slack Helper" and then
    "Slack" with the built-in table: both calls return the reference of the
    stored "Slack" entry itself, the first call writes [_app_name] into that
    stored dict, the second overwrites it (so the value the first caller
    holds changes), and a caller that clears [strip_markdown] on the value it
    received changes what the next resolution yields.  Only the path for an
    unmatched name copies before it writes. *)
Theorem get_profile_returns_the_stored_dict :
  let mgr := init [] true in
  let '(r1, st1) := get_profile mgr (Some (py "Slack Helper")) [] module_store in
  let '(r2, st2) := get_profile mgr (Some (py "Slack")) [] st1 in
  let st3 := set_key st2 r2 "strip_markdown" (VBool false) in
  let '(r4, st4) := get_profile mgr (Some (py "Slack")) [] st3 in
  let '(r5, st5) := get_profile mgr (Some (py "Unknown")) [] module_store in
  table_get (py "Slack") (_profiles mgr) = Some r1
  /\ r2 = r1 /\ r4 = r1
  /\ app_name_of module_store r1 = None
  /\ app_name_of st1 r1 = Some (VStr (py "Slack Helper"))
  /\ app_name_of st2 r1 = Some (VStr (py "Slack"))
  /\ (objs module_store !! r1 ≫= (fun d => d !! "strip_markdown"%string)) = Some (VBool true)
  /\ (objs st4 !! r4 ≫= (fun d => d !! "strip_markdown"%string)) = Some (VBool false)
  /\ r5 = next module_store
  /\ app_name_of st5 FALLBACK_PROFILE = None.
Proof. vm_compute. repeat split; reflexivity. Qed.

End ProfileFacts.

(** ** The remote formatter *)

Section FormatterFacts.
Import Formatters.

(** With a client at hand (kept from an earlier call, or built now),
    [format_text] does not raise, and it returns the text it was given when
    the request raises and, after an [ImportError], the second request raises
    too. *)
Lemma format_text_with_client (w : remote) (self : formatter) (raw_text : text)
    (on_progress : bool) :
  (_client self = true \/ new_client w = Ok tt) ->
  exists t self' log,
    format_text w self raw_text on_progress = (Ok t, self', log)
    /\ (is_blank raw_text = false ->
        forall e, first_request w raw_text = Raise e ->
        (forall m, e = ImportError m ->
                   exists e', second_request w raw_text = Raise e') ->
        t = raw_text).
Proof.
  intros Hc. unfold format_text, first_request, second_request, user_prompt.
  destruct (is_blank raw_text) eqn:Hb.
  { eexists _, _, _. split; [reflexivity | discriminate]. }
  assert (Hg : exists self', _get_client w self = (Ok tt, self')).
  { unfold _get_client. destruct Hc as [-> | ->]; eauto.
    destruct (_client self); eauto. }
  destruct Hg as [self' ->].
  destruct (match import_types w with
            | Ok _ => generate_with_config w _
            | Raise e => Raise e
            end) as [resp | [m0 | m0]] eqn:Hreq.
  - eexists _, _, _. split; [reflexivity | intros _ e He; discriminate].
  - destruct (generate_plain w _) as [resp | e'] eqn:Hsec.
    + eexists _, _, _. split; [reflexivity|].
      intros _ e He Himp. injection He as <-.
      destruct (Himp m0 eq_refl) as [e' He']. discriminate.
    + eexists _, _, _. split; [reflexivity | reflexivity].
  - eexists _, _, _. split; [reflexivity | reflexivity].
Qed.

(** C5 (the code departs from the claim).  When the client cannot be built,
    [format_text] raises to its caller: [_get_client] is called before the
    [try] that turns request errors into the unformatted text. *)
Theorem format_text_raises_without_client :
  format_text no_client (Formatter (py "key") (py "gemini-2.0-flash") false)
    (py "こんにちは") true
  = (Raise (ImportError (py "No module named google")),
     Formatter (py "key") (py "gemini-2.0-flash") false,
     [Msg (py "テキストを整形中...")]).
Proof. vm_compute. reflexivity. Qed.

End FormatterFacts.

(** ** The gesture detector *)

Section GestureFacts.
Import Gesture.

Lemma Qltb_lt (x y : Q) : Qltb x y = true <-> (x < y)%Q.
Proof.
  unfold Qltb. rewrite negb_true_iff.
  split; intros H.
  - apply Qnot_le_lt. intros Hle. apply Qle_bool_iff in Hle. congruence.
  - destruct (Qle_bool y x) eqn:E; [|reflexivity].
    apply Qle_bool_iff in E. exfalso. exact (Qlt_not_le _ _ H E).
Qed.

Lemma Qltb_ge (x y : Q) : Qltb x y = false <-> (y <= x)%Q.
Proof.
  unfold Qltb. rewrite negb_false_iff. apply Qle_bool_iff.
Qed.

Lemma press_step (d : detector) (now : Q) :
  _rcmd_was_pressed d = false ->
  flags_changed_callback d PRESSED now
  = (Detector now (_rcmd_last_tap d) true, false).
Proof. intros H. unfold flags_changed_callback. rewrite H. reflexivity. Qed.

Lemma release_step (d : detector) (now : Q) :
  _rcmd_was_pressed d = true ->
  flags_changed_callback d RELEASED now
  = if Qltb (now - _rcmd_press_time d) TAP_THRESHOLD then
      if Qltb (now - _rcmd_last_tap d) DOUBLE_TAP_INTERVAL then
        (Detector (_rcmd_press_time d) 0 false, true)
      else (Detector (_rcmd_press_time d) now false, false)
    else (Detector (_rcmd_press_time d) (_rcmd_last_tap d) false, false).
Proof.
  intros H. unfold flags_changed_callback. rewrite H. simpl.
  destruct (Qltb _ TAP_THRESHOLD); [destruct (Qltb _ DOUBLE_TAP_INTERVAL)|];
    reflexivity.
Qed.

(** C7, as the code has it.  A press held for the tap threshold or longer
    emits nothing when it is released, and it is ignored rather than used to
    reset the detector: the time of a pending tap stays.  So after a tap, a
    long hold and a second tap, the last release emits a trigger exactly when
    it comes less than the double-tap interval after the release of the first
    tap. *)
Theorem long_hold_keeps_pending_tap (d : detector) (t0 t1 t2 t3 t4 t5 : Q) :
  _rcmd_was_pressed d = false ->
  (t1 - t0 < TAP_THRESHOLD)%Q ->
  (DOUBLE_TAP_INTERVAL <= t1 - _rcmd_last_tap d)%Q ->
  (TAP_THRESHOLD <= t3 - t2)%Q ->
  (t5 - t4 < TAP_THRESHOLD)%Q ->
  run d [(PRESSED, t0); (RELEASED, t1); (PRESSED, t2); (RELEASED, t3);
         (PRESSED, t4); (RELEASED, t5)]
  = (Detector t4 (if Qltb (t5 - t1) DOUBLE_TAP_INTERVAL then 0 else t5) false,
     [false; false; false; false; false; Qltb (t5 - t1) DOUBLE_TAP_INTERVAL]).
Proof.
  intros Hup Htap1 Hfirst Hhold Htap2.
  apply Qltb_lt in Htap1, Htap2. apply Qltb_ge in Hfirst, Hhold.
  unfold run.
  rewrite (press_step d t0 Hup).
  rewrite release_step by reflexivity. cbn [_rcmd_press_time _rcmd_last_tap].
  rewrite Htap1, Hfirst.
  rewrite press_step by reflexivity. cbn [_rcmd_last_tap].
  rewrite release_step by reflexivity. cbn [_rcmd_press_time _rcmd_last_tap].
  rewrite Hhold.
  rewrite press_step by reflexivity. cbn [_rcmd_last_tap].
  rewrite release_step by reflexivity. cbn [_rcmd_press_time _rcmd_last_tap].
  rewrite Htap2.
  destruct (Qltb (t5 - t1) DOUBLE_TAP_INTERVAL); reflexivity.
Qed.

Lemma long_hold_keeps_pending_tap_witness :
  run initial tap_hold_tap
  = (Detector (100 + (45 # 100)) 0 false, [false; false; false; false; false; true]).
Proof.
  unfold tap_hold_tap.
  rewrite (long_hold_keeps_pending_tap initial 100 (100 + (1 # 10))
             (100 + (15 # 100)) (100 + (42 # 100)) (100 + (45 # 100))
             (100 + (1 # 2)));
    [reflexivity | reflexivity | reflexivity | vm_compute; discriminate
    | vm_compute; discriminate | reflexivity].
Defined.

(** C7 as stated fails: a tap, then a press held 0.27 s, then a tap; the
    release of the last tap, 0.4 s after the release of the first, emits a
    trigger. *)
Lemma trigger_after_long_hold :
  Qltb ((100 + (42 # 100)) - (100 + (15 # 100))) TAP_THRESHOLD = false
  /\ snd (run initial tap_hold_tap) = [false; false; false; false; false; true].
Proof. split; reflexivity. Qed.

End GestureFacts.

(** ** The session controller *)

Section SessionFacts.
Import Session Formatters.

(** C8.  While the session is processing, a trigger, whether it comes from
    the menu item or from a flags-changed event that completes a double tap,
    changes nothing but the list of notifications shown, to which the busy
    message is added: the phase stays Processing, the recording flag and the
    recorder are untouched, no thread is started and nothing is kept for
    later. *)
Theorem trigger_while_processing_is_rejected (w : world) (a : app) :
  phase_of a = Processing ->
  toggle_recording w a = set_notifications (notifications a ++ [BUSY]) a
  /\ phase_of (toggle_recording w a) = Processing
  /\ _recording (toggle_recording w a) = _recording a
  /\ recorder (toggle_recording w a) = recorder a
  /\ threads (toggle_recording w a) = threads a
  /\ temp_files (toggle_recording w a) = temp_files a
  /\ forall d flags now,
       let '(_, a') := on_flags_changed w flags now (d, a) in
       a' = a \/ a' = set_notifications (notifications a ++ [BUSY]) a.
Proof.
  intros Hp.
  assert (Hproc : _processing a = true).
  { unfold phase_of in Hp. destruct (_processing a); [reflexivity|].
    destruct (_recording a); discriminate. }
  assert (Ht : toggle_recording w a = set_notifications (notifications a ++ [BUSY]) a).
  { unfold toggle_recording. rewrite Hproc. reflexivity. }
  rewrite Ht. split; [reflexivity|].
  split. { unfold phase_of. simpl. rewrite Hproc. reflexivity. }
  repeat (split; [reflexivity|]).
  intros d flags now. unfold on_flags_changed. cbn [fst snd].
  destruct (Gesture.flags_changed_callback d flags now) as [d' fired].
  destruct fired; [right; exact Ht | left; reflexivity].
Qed.

Lemma trigger_while_processing_is_rejected_witness :
  let a := set_processing true (start_app None) in
  toggle_recording calm_world a = set_notifications (notifications a ++ [BUSY]) a
  /\ phase_of (toggle_recording calm_world a) = Processing.
Proof.
  intros a.
  destruct (trigger_while_processing_is_rejected calm_world a eq_refl)
    as (H1 & H2 & _).
  split; assumption.
Defined.

Lemma same_frame_refl (a : app) : same_frame a a.
Proof. repeat split. Qed.

Lemma same_frame_trans (a b c : app) :
  same_frame a b -> same_frame b c -> same_frame a c.
Proof.
  intros (H1 & H2 & H3) (K1 & K2 & K3).
  repeat split; congruence.
Qed.

Lemma keeps_ret {A : Type} (x : A) : keeps (mret x).
Proof. intros a. apply same_frame_refl. Qed.

Lemma keeps_raise {A : Type} (e : exn) : keeps (@raise A e).
Proof. intros a. apply same_frame_refl. Qed.

Lemma keeps_of_result {A : Type} (r : result A) : keeps (of_result r).
Proof. intros a. apply same_frame_refl. Qed.

Lemma keeps_get {A : Type} (f : app -> A) : keeps (get f).
Proof. intros a. apply same_frame_refl. Qed.

Lemma keeps_lift (f : app -> app) :
  (forall a, same_frame a (f a)) -> keeps (lift f).
Proof. intros H a. apply H. Qed.

Lemma keeps_bind {A B : Type} (m : M A) (f : A -> M B) :
  keeps m -> (forall x, keeps (f x)) -> keeps (m ≫= f).
Proof.
  intros Hm Hf a. unfold mbind, M_bind, bind.
  specialize (Hm a). destruct (m a) as [[x | e] a1]; cbn [snd] in *.
  - eapply same_frame_trans; [exact Hm | apply Hf].
  - exact Hm.
Qed.

Lemma keeps_try_except {A : Type} (body : M A) (handler : exn -> M A) :
  keeps body -> (forall e, keeps (handler e)) -> keeps (try_except body handler).
Proof.
  intros Hb Hh a. unfold try_except.
  specialize (Hb a). destruct (body a) as [[x | e] a1]; cbn [snd] in *.
  - exact Hb.
  - eapply same_frame_trans; [exact Hb | apply Hh].
Qed.

Lemma keeps_progress (ms : list message) : keeps (progress ms).
Proof.
  intros a. unfold progress, lift. cbn [snd].
  revert a. induction ms as [|m ms IH]; intros a; [apply same_frame_refl|].
  cbn [fold_left]. eapply same_frame_trans; [|apply IH]. repeat split.
Qed.

Ltac keeps_step :=
  lazymatch goal with
  | |- keeps (mret _) => apply keeps_ret
  | |- keeps (ret _) => apply keeps_ret
  | |- keeps (raise _) => apply keeps_raise
  | |- keeps (of_result _) => apply keeps_of_result
  | |- keeps (get _) => apply keeps_get
  | |- keeps (progress _) => apply keeps_progress
  | |- keeps (lift _) => apply keeps_lift; intros ?; repeat split
  | |- keeps (mbind _ _) => apply keeps_bind; [|intros ?]
  | |- keeps (if ?b then _ else _) => destruct b
  | |- keeps (match ?x with _ => _ end) => destruct x
  end.

Lemma keeps_do_load_model (w : world) : keeps (do_load_model w).
Proof. unfold do_load_model. repeat keeps_step. Qed.

Lemma keeps_do_transcribe (w : world) (audio_path : text) :
  keeps (do_transcribe w audio_path).
Proof.
  pose proof (keeps_do_load_model w).
  unfold do_transcribe. repeat first [assumption | keeps_step].
Qed.

Lemma keeps_copy (w : world) (t : text) : keeps (_copy_to_clipboard w t).
Proof. unfold _copy_to_clipboard. repeat keeps_step. Qed.

Lemma keeps_save (w : world) (t : text) : keeps (_save_markdown w t).
Proof. unfold _save_markdown. repeat keeps_step. Qed.

Lemma keeps_paste : keeps _paste_to_active_app.
Proof. unfold _paste_to_active_app. repeat keeps_step. Qed.

Lemma keeps_resolve_profile (w : world) : keeps (resolve_profile w).
Proof.
  intros a. unfold resolve_profile.
  destruct (Profiles.get_profile _ _ _ _). repeat split.
Qed.

Lemma same_frame_statuses (log : list message) (a : app) :
  same_frame a (fold_left (fun a m => _update_status m a) log a).
Proof.
  revert a. induction log as [|m log IH]; intros a; [apply same_frame_refl|].
  cbn [fold_left]. eapply same_frame_trans; [|apply IH]. repeat split.
Qed.

Lemma keeps_format_with_gemini (w : world) (f : formatter) (t : text) :
  keeps (format_with_gemini w f t).
Proof.
  intros a. unfold format_with_gemini.
  destruct (format_text _ _ _ _) as [[r f'] log]. cbn [snd].
  eapply same_frame_trans; [|apply same_frame_statuses]. repeat split.
Qed.

Lemma keeps_pipeline (w : world) (audio_path : text) :
  keeps (pipeline w audio_path).
Proof.
  pose proof (keeps_do_load_model w).
  pose proof (keeps_do_transcribe w audio_path).
  pose proof (keeps_resolve_profile w).
  pose proof keeps_paste.
  unfold pipeline.
  repeat first
    [ assumption | apply keeps_copy | apply keeps_save
    | apply keeps_format_with_gemini | keeps_step ].
Qed.

Lemma handler_returns (e : exn) (a : app) :
  exists a', (lift (_update_status (Msg (py "エラー: " ++ str_of e)));;
              lift (notification (py "VoiceNote") (py "エラー") (firstn 100 (str_of e)))) a
             = (Ok tt, a')
             /\ same_frame a a'.
Proof. eexists. split; [reflexivity | repeat split]. Qed.

Lemma cleanup_removes (w : world) (filepath : text) (a : app) :
  filepath <> [] -> unlink w filepath = true ->
  ~ In filepath (temp_files (cleanup w filepath a)).
Proof.
  intros Hne Hu. unfold cleanup.
  destruct filepath as [|c fp]; [congruence|]. rewrite Hu, andb_true_r.
  destruct (existsb _ (temp_files a)) eqn:E.
  - cbn [temp_files set_temp_files]. rewrite filter_In.
    intros [_ H]. unfold Profiles.text_eqb in H.
    rewrite bool_decide_eq_true_2 in H by reflexivity. discriminate.
  - intros Hin.
    assert (existsb (Profiles.text_eqb (c :: fp)) (temp_files a) = true); [|congruence].
    apply existsb_exists. exists (c :: fp). split; [exact Hin|].
    unfold Profiles.text_eqb. apply bool_decide_eq_true_2. reflexivity.
Qed.

Lemma cleanup_flags (w : world) (filepath : text) (a : app) :
  _processing (cleanup w filepath a) = _processing a
  /\ _recording (cleanup w filepath a) = _recording a
  /\ _transcriber_loading (cleanup w filepath a) = _transcriber_loading a
  /\ title (cleanup w filepath a) = title a
  /\ record_button_title (cleanup w filepath a) = record_button_title a.
Proof.
  unfold cleanup. destruct filepath; [repeat split|].
  destruct (_ && _); repeat split.
Qed.

(** C9.  Whatever the collaborators answer, [_process_audio] returns
    without raising, and in the state it leaves the processing flag is
    cleared, the icon and the button are those of the idle state, and the
    clean-up of the audio file has run last (the file is gone when the removal
    succeeds).  The thread does not touch the recording flag, so the session
    that was not recording is Idle again and the next trigger starts a
    recording. *)
Theorem processing_always_returns_to_idle (w : world) (audio_path : text) (a : app) :
  audio_path <> [] ->
  let '(r, a') := _process_audio w audio_path a in
  r = Ok tt
  /\ _processing a' = false
  /\ title a' = ICON_IDLE
  /\ record_button_title a' = IDLE_BUTTON
  /\ (exists a1, a' = cleanup w audio_path a1)
  /\ (unlink w audio_path = true -> ~ In audio_path (temp_files a'))
  /\ (_recording a = false -> phase_of a' = Idle)
  /\ (_recording a = false -> _transcriber_loading a = false ->
      toggle_recording w a' = _start_recording a').
Proof.
  intros Hne. unfold _process_audio, try_finally.
  pose proof (keeps_pipeline w audio_path a) as Hk.
  unfold try_except.
  destruct (pipeline w audio_path a) as [[[] | e] a1]; cbn [snd] in Hk.
  - unfold mbind, M_bind, bind, lift.
    match goal with |- context [cleanup w audio_path ?x] => set (a2 := x) end.
    destruct (cleanup_flags w audio_path a2) as (F1 & F2 & F3 & F4 & F5).
    destruct Hk as (K1 & K2 & K3).
    assert (R : _recording (cleanup w audio_path a2) = _recording a)
      by (rewrite F2; exact K1).
    assert (L : _transcriber_loading (cleanup w audio_path a2) = _transcriber_loading a)
      by (rewrite F3; exact K2).
    repeat split.
    + rewrite F1. reflexivity.
    + rewrite F4. reflexivity.
    + rewrite F5. reflexivity.
    + exists a2. reflexivity.
    + apply cleanup_removes; assumption.
    + intros Hr. unfold phase_of. rewrite F1, R, Hr. reflexivity.
    + intros Hr Hl. unfold toggle_recording. rewrite F1, L, R, Hr, Hl. reflexivity.
  - destruct (handler_returns e a1) as (a1' & -> & Hh).
    pose proof (same_frame_trans _ _ _ Hk Hh) as Hk'. clear Hk Hh.
    unfold mbind, M_bind, bind, lift.
    match goal with |- context [cleanup w audio_path ?x] => set (a2 := x) end.
    destruct (cleanup_flags w audio_path a2) as (F1 & F2 & F3 & F4 & F5).
    destruct Hk' as (K1 & K2 & K3).
    assert (R : _recording (cleanup w audio_path a2) = _recording a)
      by (rewrite F2; exact K1).
    assert (L : _transcriber_loading (cleanup w audio_path a2) = _transcriber_loading a)
      by (rewrite F3; exact K2).
    repeat split.
    + rewrite F1. reflexivity.
    + rewrite F4. reflexivity.
    + rewrite F5. reflexivity.
    + exists a2. reflexivity.
    + apply cleanup_removes; assumption.
    + intros Hr. unfold phase_of. rewrite F1, R, Hr. reflexivity.
    + intros Hr Hl. unfold toggle_recording. rewrite F1, L, R, Hr, Hl. reflexivity.
Qed.

Lemma processing_always_returns_to_idle_witness :
  let '(r, a') := _process_audio failing_world (py "/tmp/voicenote_1.wav") after_stop in
  r = Ok tt
  /\ _processing a' = false
  /\ title a' = ICON_IDLE
  /\ record_button_title a' = IDLE_BUTTON
  /\ (exists a1, a' = cleanup failing_world (py "/tmp/voicenote_1.wav") a1)
  /\ (unlink failing_world (py "/tmp/voicenote_1.wav") = true ->
      ~ In (py "/tmp/voicenote_1.wav") (temp_files a'))
  /\ (_recording after_stop = false -> phase_of a' = Idle)
  /\ (_recording after_stop = false -> _transcriber_loading after_stop = false ->
      toggle_recording failing_world a' = _start_recording a').
Proof.
  apply (processing_always_returns_to_idle failing_world
           (py "/tmp/voicenote_1.wav") after_stop).
  vm_compute. discriminate.
Defined.

(** A run whose transcript, more than a hundred characters long, goes to a
    remote formatter whose client cannot be built: the run ends with the
    error shown, and nothing reaches the clipboard. *)
Example failed_client_ends_the_run :
  let w :=
    World true true (VoiceCommands.init true []) (Profiles.init [] true)
      (py "large-v3") (py "/tmp/voicenote_1.wav")
      (Ok tt) (Ok tt) (fun _ => Ok (concat (repeat (py "今日は良い天気です") 12)))
      (py "Notes") no_client
      (fun _ => Ok tt) (fun _ => Ok tt)
      (fun _ => Ok (py "/out/note.md")) (fun _ => true) in
  let f := Formatter (py "key") (py "gemini-2.0-flash") false in
  let a' := snd (_process_audio w (py "/tmp/voicenote_1.wav")
                   (set_formatter (Some f) after_stop)) in
  clipboard a' = None
  /\ saved a' = []
  /\ status_item_title a' = Msg (py "エラー: No module named google")
  /\ phase_of a' = Idle.
Proof. vm_compute. repeat split; reflexivity. Qed.

End SessionFacts.

(** ** The matcher on literal patterns and on the command pattern *)

Section MatcherFacts.
Import VoiceCommands.

Lemma strip_prefix_app (s tail : text) : strip_prefix s (s ++ tail) = Some tail.
Proof.
  induction s as [|c s IH]; [reflexivity|].
  cbn. rewrite N.eqb_refl. exact IH.
Qed.

Lemma strip_prefix_Some (s rest tail : text) :
  strip_prefix s rest = Some tail -> rest = s ++ tail.
Proof.
  revert rest. induction s as [|c s IH]; intros rest H.
  - cbn in H. injection H as ->. reflexivity.
  - destruct rest as [|x rest]; [discriminate|]. cbn in H.
    destruct (N.eqb x c) eqn:E; [|discriminate].
    apply N.eqb_eq in E. subst x. cbn. f_equal. apply IH. exact H.
Qed.

Lemma lit_strip (s : text) (prev : option char) (rest : text) (n : nat)
    (cap : span) (k : cont) :
  rmatch (lit s) prev rest n cap k
  = match strip_prefix s rest with
    | Some tail => k (last_of prev s) tail (n + length s) cap
    | None => None
    end.
Proof.
  revert prev rest n. induction s as [|c s IH]; intros prev rest n.
  - cbn. rewrite Nat.add_0_r. reflexivity.
  - destruct rest as [|x rest]; [reflexivity|]. cbn.
    destruct (N.eqb x c) eqn:E; [|reflexivity].
    rewrite IH. apply N.eqb_eq in E. subst x.
    replace (S n + length s) with (n + S (length s)) by lia. reflexivity.
Qed.

Lemma nl_is_boundary (x : char) : N.eqb x nl = true -> is_boundary x = true.
Proof. intros H. apply N.eqb_eq in H. subst x. reflexivity. Qed.

Lemma match_at_cmd (trig : text) (prev : option char) (rest : text) (adv : bool) :
  match_at (cmd_pattern trig) prev rest adv = cmd_match trig prev rest adv.
Proof.
  unfold match_at, cmd_pattern, cmd_match.
  cbn [rmatch]. rewrite !lit_strip. cbn [Nat.add].
  set (K := match strip_prefix trig rest with Some _ => _ | None => _ end).
  assert (HK : K = match strip_prefix trig rest with
                   | Some (x :: _) =>
                     if is_boundary x
                     then Some (S (length trig), Some (0, length trig)) else None
                   | Some [] =>
                     if adv && Nat.eqb (length trig) 0 then None
                     else Some (length trig, Some (0, length trig))
                   | None => None
                   end).
  { subst K. destruct (strip_prefix trig rest) as [[|x tail]|]; [| |reflexivity].
    - destruct (adv && _); reflexivity.
    - cbn [Nat.eqb]. rewrite andb_false_r.
      destruct (is_boundary x) eqn:B; [reflexivity|].
      destruct (N.eqb x nl) eqn:E; [|reflexivity].
      apply nl_is_boundary in E. congruence. }
  rewrite <- HK. clear HK.
  destruct prev as [x|]; cbn [boundary_before].
  - destruct (N.eqb x nl) eqn:E.
    + rewrite (nl_is_boundary x E). destruct K; reflexivity.
    + destruct (is_boundary x); reflexivity.
  - destruct K; reflexivity.
Qed.

(** *** The scan, step by step *)

Lemma scan_skipn (r : regex) (k : nat) (rest : text) (prev : option char) :
  k <= length rest ->
  scan r prev rest k = scan r (last_of prev (firstn k rest)) (skipn k rest) 0.
Proof.
  revert rest prev. induction k as [|k IH]; intros rest prev Hk.
  - reflexivity.
  - destruct rest as [|c rest]; [cbn in Hk; lia|].
    cbn [scan firstn skipn]. rewrite IH by (cbn in Hk; lia). reflexivity.
Qed.

Lemma scan_miss (r : regex) (prev : option char) (c : char) (rest : text) :
  match_at r prev (c :: rest) false = None ->
  scan r prev (c :: rest) 0 = PLit c :: scan r (Some c) rest 0.
Proof. intros H. cbn [scan]. rewrite H. reflexivity. Qed.

Lemma scan_hit (r : regex) (prev : option char) (c : char) (rest : text)
    (k : nat) (g : span) :
  match_at r prev (c :: rest) false = Some (S k, g) ->
  scan r prev (c :: rest) 0
  = PHit (firstn (S k) (c :: rest)) g :: scan r (Some c) rest k.
Proof. intros H. cbn [scan]. rewrite H. reflexivity. Qed.

Lemma scan_end (r : regex) (prev : option char) :
  match_at r prev [] false = None -> scan r prev [] 0 = [].
Proof. intros H. cbn [scan]. rewrite H. reflexivity. Qed.



Lemma expand_literal (m : text) (g : span) (rep : text) :
  flat_map (expand_item m g) (literal rep) = rep.
Proof.
  unfold literal. induction rep as [|c rep IH]; [reflexivity|].
  cbn. f_equal. exact IH.
Qed.




(** *** One command pattern over a text *)



Section OneRule.

Variable trig : text.
Hypothesis trig_not_empty : trig <> [].
Hypothesis trig_plain : Forall (fun x => is_boundary x = false) trig.

Let pat : regex := cmd_pattern trig.




End OneRule.

End MatcherFacts.

(** ** The order of the rule table *)

Section SortFacts.

Context {A : Type} (key : A -> nat).



Lemma insert_desc_In (x y : A) (l : list A) :
  In y (insert_desc key x l) <-> y = x \/ In y l.
Proof.
  induction l as [|z l IH]; cbn [insert_desc].
  - cbn. split; intros [H | H]; auto.
  - destruct (key x <? key z); cbn [In]; rewrite ?IH;
      split; intros H; repeat destruct H as [H | H]; auto.
Qed.

Lemma sort_desc_In (y : A) (l : list A) :
  In y (sort_desc key l) <-> In y l.
Proof.
  induction l as [|z l IH]; [cbn; tauto|].
  unfold sort_desc in *. cbn [fold_right In]. rewrite insert_desc_In, IH.
  split; intros [H | H]; auto.
Qed.



Lemma insert_sorted (z : A) (l : list A) :
  sorted_desc key l -> sorted_desc key (insert_desc key z l).
Proof.
  unfold sorted_desc. induction 1 as [|w l Hs IH Hw]; cbn [insert_desc].
  - repeat constructor.
  - destruct (key z <? key w) eqn:E.
    + apply Nat.ltb_lt in E. constructor; [exact IH|].
      apply List.Forall_forall. intros y Hy. apply insert_desc_In in Hy.
      destruct Hy as [-> | Hy]; [lia|].
      rewrite List.Forall_forall in Hw. apply Hw, Hy.
    + apply Nat.ltb_ge in E. constructor; [constructor; assumption|].
      constructor; [exact E|].
      rewrite List.Forall_forall in *. intros y Hy. specialize (Hw y Hy). lia.
Qed.

Lemma sort_desc_sorted (l : list A) : sorted_desc key (sort_desc key l).
Proof.
  induction l as [|z l IH]; [constructor|]. apply insert_sorted, IH.
Qed.




End SortFacts.

(** ** The command transformer *)

Section CommandFacts.
Import VoiceCommands.

Lemma plainb_plain (s : text) : plainb s = true -> plain s.
Proof.
  unfold plainb, plain. rewrite forallb_forall, List.Forall_forall.
  intros H x Hx. apply negb_true_iff, H, Hx.
Qed.







(** The same on whole transcripts: the punctuation after a command goes,
    the punctuation before it stays. *)
Example process_drops_following_punctuation :
  process (init true []) (py "メモ、改行。次の行") = py "メモ、\n次の行"
  /\ process (init true []) (py "はじめに。太字、重要") = py "はじめに。**重要".
Proof. split; vm_compute; reflexivity. Qed.

(** The triggers of the built-in table are not empty and hold no boundary
    character, and no character of a built-in replacement occurs in a
    built-in trigger. *)
Lemma builtin_triggers_plain :
  Forall (fun r => trigger r <> [] /\ plain (trigger r)) COMMANDS.
Proof.
  assert (H : forallb (fun r => negb (Nat.eqb (length (trigger r)) 0)
                                && plainb (trigger r)) COMMANDS = true)
    by (vm_compute; reflexivity).
  rewrite forallb_forall in H. apply List.Forall_forall. intros r Hr.
  specialize (H r Hr). apply andb_true_iff in H. destruct H as [Hn Hp].
  split; [|apply plainb_plain, Hp].
  intros E. rewrite E in Hn. discriminate.
Qed.

(** *** Priority *)






End CommandFacts.

(** ** Where the characters of a transformed text come from *)

Section Provenance.
Import VoiceCommands.














Section Untouched.

(** [R] holds of the characters that replacements are made of. *)
Variable R : char -> Prop.
Variables trig rep : text.
Hypothesis trig_out : forall c, In c trig -> ~ R c.
Hypothesis rep_in : forall c, In c rep -> R c.





Lemma marks_in_tail (x : char * bool) (mt : marked) :
  marks_in R (x :: mt) -> marks_in R mt.
Proof. intros H c Hc. apply H. right. exact Hc. Qed.

Lemma marks_in_skipn (k : nat) (mt : marked) :
  marks_in R mt -> marks_in R (skipn k mt).
Proof.
  revert mt. induction k as [|k IH]; intros [|x mt] H; try exact H.
  apply IH. exact (marks_in_tail x mt H).
Qed.


End Untouched.

Lemma one_of_false (l : text) (c : char) : one_of l c = false -> ~ In c l.
Proof.
  unfold one_of. intros H Hin.
  assert (existsb (N.eqb c) l = true); [|congruence].
  apply existsb_exists. exists c. split; [exact Hin | apply N.eqb_refl].
Qed.



Lemma builtin_table_separate : separate COMMANDS = true.
Proof. vm_compute. reflexivity. Qed.





End Provenance.

(** ** The plain-text reducer *)

Section ReducerFacts.
Import Reducer.

Lemma suffix_refl (s : text) : suffix_of s s.
Proof. exists []. reflexivity. Qed.

Lemma suffix_cons (c : char) (s : text) : suffix_of s (c :: s).
Proof. exists [c]. reflexivity. Qed.

Lemma suffix_trans (a b c : text) :
  suffix_of a b -> suffix_of b c -> suffix_of a c.
Proof.
  intros [p ->] [q ->]. exists (q ++ p). apply app_assoc.
Qed.

Lemma free_of_suffix (X : char -> bool) (s' s : text) :
  suffix_of s' s -> free_of X s -> free_of X s'.
Proof.
  intros [pre ->] H. unfold free_of in *. apply Forall_app in H. apply H.
Qed.

(** A match whose continuation fails everywhere fails. *)
Lemma rep_match_dead (g : bool) (p : char -> bool) (rest : text) :
  forall lo hi prev n cap (k : cont),
    (forall prev' rest' n' cap', suffix_of rest' rest -> k prev' rest' n' cap' = None) ->
    rep_match g p lo hi prev rest n cap k = None.
Proof.
  induction rest as [|c rest IH]; intros lo hi prev n cap k Hk.
  - cbn. destruct lo; [apply Hk, suffix_refl | reflexivity].
  - cbn [rep_match].
    assert (Hstop : match lo with
                    | 0 => k prev (c :: rest) n cap
                    | S _ => None
                    end = None).
    { destruct lo; [apply Hk, suffix_refl | reflexivity]. }
    rewrite Hstop.
    rewrite IH.
    + destruct (p c && may_take hi); [destruct g|]; reflexivity.
    + intros prev' rest' n' cap' Hs. apply Hk.
      eapply suffix_trans; [exact Hs | apply suffix_cons].
Qed.

Lemma rmatch_dead (r : regex) :
  forall prev rest n cap (k : cont),
    (forall prev' rest' n' cap', suffix_of rest' rest -> k prev' rest' n' cap' = None) ->
    rmatch r prev rest n cap k = None.
Proof.
  induction r as [| c | p | | | | p | p | r1 IH1 r2 IH2 | r1 IH1 r2 IH2
                  | g p lo hi | r IH];
    intros prev rest n cap k Hk; cbn [rmatch].
  - apply Hk, suffix_refl.
  - destruct rest as [|x rest]; [reflexivity|].
    destruct (N.eqb x c); [apply Hk, suffix_cons | reflexivity].
  - destruct rest as [|x rest]; [reflexivity|].
    destruct (p x); [apply Hk, suffix_cons | reflexivity].
  - destruct prev as [x|]; [destruct (N.eqb x nl)|];
      try reflexivity; apply Hk, suffix_refl.
  - destruct rest as [|x rest]; [|destruct (N.eqb x nl)];
      try reflexivity; apply Hk, suffix_refl.
  - destruct prev; [reflexivity | apply Hk, suffix_refl].
  - destruct prev as [x|]; [destruct (p x)|];
      try reflexivity; apply Hk, suffix_refl.
  - destruct rest as [|x rest]; [|destruct (p x)];
      try reflexivity; apply Hk, suffix_refl.
  - apply IH1. intros prev' rest' n' cap' Hs. apply IH2.
    intros prev'' rest'' n'' cap'' Hs'. apply Hk.
    eapply suffix_trans; eassumption.
  - rewrite IH1, IH2 by exact Hk. reflexivity.
  - apply rep_match_dead, Hk.
  - apply IH. intros prev' rest' n' cap' Hs. apply Hk, Hs.
Qed.

(** A pattern that needs a character of [X] matches nowhere in a text that
    has none. *)
Lemma needs_fail (X : char -> bool) (r : regex) :
  needs X r ->
  forall prev rest n cap (k : cont),
    free_of X rest -> rmatch r prev rest n cap k = None.
Proof.
  induction 1 as [c Hc | p Hp | r1 r2 _ IH | r1 r2 _ IH | r1 r2 _ IH1 _ IH2
                  | g p lo hi Hp | r _ IH];
    intros prev rest n cap k Hfree; cbn [rmatch].
  - destruct rest as [|x rest]; [reflexivity|].
    destruct (N.eqb x c) eqn:E; [|reflexivity].
    apply N.eqb_eq in E. subst x. inversion Hfree; subst. congruence.
  - destruct rest as [|x rest]; [reflexivity|].
    destruct (p x) eqn:E; [|reflexivity].
    apply Hp in E. inversion Hfree; subst. congruence.
  - apply IH, Hfree.
  - apply rmatch_dead. intros prev' rest' n' cap' Hs.
    apply IH. exact (free_of_suffix X rest' rest Hs Hfree).
  - rewrite IH1, IH2 by exact Hfree. reflexivity.
  - destruct rest as [|x rest]; [reflexivity|]. cbn [rep_match].
    destruct (p x) eqn:E; [|reflexivity].
    apply Hp in E. inversion Hfree; subst. congruence.
  - apply IH, Hfree.
Qed.

Lemma scan_free (X : char -> bool) (r : regex) (rest : text) :
  needs X r -> free_of X rest ->
  forall prev, scan r prev rest 0 = map PLit rest.
Proof.
  intros Hn. induction rest as [|c rest IH]; intros Hfree prev.
  - apply scan_end. apply (needs_fail X r Hn). exact Hfree.
  - rewrite scan_miss by (apply (needs_fail X r Hn); exact Hfree).
    cbn [map]. f_equal. apply IH. inversion Hfree; assumption.
Qed.

Lemma expand_lits (tmpl : list titem) (s : text) :
  flat_map (expand tmpl) (map PLit s) = s.
Proof. induction s as [|c s IH]; [reflexivity|]. cbn. f_equal. exact IH. Qed.

(** Such a substitution changes nothing. *)
Lemma re_sub_free (X : char -> bool) (r : regex) (tmpl : list titem) (s : text) :
  needs X r -> free_of X s -> re_sub r tmpl s = s.
Proof.
  intros Hn Hfree. unfold re_sub, sub_from.
  rewrite (scan_free X r s Hn Hfree). apply expand_lits.
Qed.

(** *** Runs of newlines *)

Lemma rep_newlines (adv : bool) (rest : text) :
  forall lo prev n,
    rep_match true (is_char nl) lo None prev rest n None (final adv)
    = if lo <=? lead rest then final adv None [] (n + lead rest) None else None.
Proof.
  induction rest as [|c rest IH]; intros lo prev n.
  - cbn. rewrite Nat.add_0_r. destruct lo; reflexivity.
  - cbn [rep_match lead]. unfold is_char at 1.
    destruct (N.eqb c nl) eqn:E; cbn [andb may_take took].
    + rewrite IH. destruct lo as [|lo]; cbn [pred Nat.leb].
      * unfold final. replace (S n + lead rest) with (n + S (lead rest)) by lia.
        replace (n + S (lead rest) =? 0) with false
          by (symmetry; apply Nat.eqb_neq; lia).
        rewrite andb_false_r. reflexivity.
      * destruct (lo <=? lead rest); [|reflexivity].
        unfold final. replace (S n + lead rest) with (n + S (lead rest)) by lia.
        replace (n + S (lead rest) =? 0) with false
          by (symmetry; apply Nat.eqb_neq; lia).
        rewrite andb_false_r. reflexivity.
    + rewrite Nat.add_0_r. destruct lo; reflexivity.
Qed.

Lemma match_blank_lines (prev : option char) (rest : text) (adv : bool) :
  match_at blank_lines_re prev rest adv
  = if 3 <=? lead rest then Some (lead rest, None) else None.
Proof.
  unfold match_at, blank_lines_re. cbn [rmatch].
  pose proof (rep_newlines adv rest 3 prev 0) as H. unfold final in H.
  rewrite H. clear H. destruct (3 <=? lead rest) eqn:E; [|reflexivity].
  apply Nat.leb_le in E. cbn [Nat.add].
  replace (lead rest =? 0) with false by (symmetry; apply Nat.eqb_neq; lia).
  rewrite andb_false_r. reflexivity.
Qed.

Lemma lead_le_length (s : text) : lead s <= length s.
Proof.
  induction s as [|c s IH]; [reflexivity|]. cbn.
  destruct (N.eqb c nl); lia.
Qed.

Lemma lead_skipn (s : text) : lead (skipn (lead s) s) = 0.
Proof.
  induction s as [|c s IH]; [reflexivity|]. cbn [lead].
  destruct (N.eqb c nl) eqn:E.
  - exact IH.
  - cbn. rewrite E. reflexivity.
Qed.

Lemma lead_app (a b : text) : lead a <= lead (a ++ b).
Proof.
  induction a as [|c a IH]; cbn; [lia|].
  destruct (N.eqb c nl); lia.
Qed.

Lemma run_free_suffix (a b : text) : run_free (a ++ b) -> run_free b.
Proof.
  induction a as [|c a IH]; [exact (fun H => H)|].
  intros [_ H]. apply IH, H.
Qed.

Lemma run_free_prefix (a b : text) : run_free (a ++ b) -> run_free a.
Proof.
  induction a as [|c a IH]; [constructor|].
  intros [Hl H]. split; [|apply IH, H].
  pose proof (lead_app (c :: a) b). cbn [app] in *. lia.
Qed.

(** A text without such a run is left as it is. *)
Lemma collapse_run_free (s : text) :
  run_free s ->
  forall prev, sub_from blank_lines_re (literal (py "\n\n")) prev s = s.
Proof.
  unfold sub_from. induction s as [|c s IH]; intros Hrun prev.
  - rewrite scan_end; [reflexivity|]. apply match_blank_lines.
  - destruct Hrun as [Hl Hrun]. rewrite scan_miss.
    + cbn [flat_map expand app]. f_equal. apply IH, Hrun.
    + rewrite match_blank_lines.
      destruct (3 <=? lead (c :: s)) eqn:E; [|reflexivity].
      apply Nat.leb_le in E. lia.
Qed.

(** The result of collapsing has no such run. *)
Lemma collapse_gives_run_free (n : nat) :
  forall s prev,
    length s <= n ->
    let out := sub_from blank_lines_re (literal (py "\n\n")) prev s in
    run_free out /\ lead out <= lead s /\ lead out <= 2.
Proof.
  induction n as [|n IH]; intros s prev Hlen.
  - destruct s; [|cbn in Hlen; lia]. cbn zeta. unfold sub_from.
    rewrite scan_end by apply match_blank_lines. cbn. repeat split; lia.
  - destruct s as [|c s].
    { cbn zeta. unfold sub_from.
      rewrite scan_end by apply match_blank_lines. cbn. repeat split; lia. }
    cbn zeta. unfold sub_from.
    destruct (3 <=? lead (c :: s)) eqn:E.
    + apply Nat.leb_le in E.
      destruct (lead (c :: s)) as [|k] eqn:Ek; [lia|].
      rewrite (scan_hit blank_lines_re prev c s k None)
        by (rewrite match_blank_lines, Ek; apply Nat.leb_le in E; rewrite E; reflexivity).
      assert (Hk : k = lead s).
      { cbn [lead] in Ek. destruct (N.eqb c nl); [lia | discriminate]. }
      pose proof (lead_le_length s) as Hle.
      rewrite scan_skipn by lia.
      cbn [flat_map expand]. rewrite expand_literal.
      specialize (IH (skipn k s) (last_of (Some c) (firstn k s))).
      cbn zeta in IH. unfold sub_from in IH.
      destruct IH as (H1 & H2 & H3).
      { rewrite length_skipn. cbn in Hlen. lia. }
      pose proof (lead_skipn s) as Hz. rewrite <- Hk in Hz.
      set (out := flat_map _ (scan _ _ (skipn k s) 0)) in *.
      assert (H0 : lead out = 0) by lia.
      change (py "\n\n") with [nl; nl].
      cbn [app lead run_free]. rewrite N.eqb_refl, H0.
      repeat split; try lia. exact H1.
    + apply Nat.leb_gt in E.
      rewrite scan_miss
        by (rewrite match_blank_lines;
            destruct (3 <=? lead (c :: s)) eqn:E'; [apply Nat.leb_le in E'; lia | reflexivity]).
      cbn [flat_map expand app].
      specialize (IH s (Some c)). cbn zeta in IH. unfold sub_from in IH.
      destruct IH as (H1 & H2 & H3); [cbn in Hlen; lia|].
      set (out := flat_map _ (scan _ _ s 0)) in *.
      cbn [lead run_free] in *. destruct (N.eqb c nl).
      * repeat split; try lia. exact H1.
      * repeat split; try lia. exact H1.
Qed.

(** *** Stripping *)

Lemma lstrip_head_ok (p : char -> bool) (s : text) : head_ok p (lstrip_by p s).
Proof.
  induction s as [|c s IH]; [exact I|]. cbn.
  destruct (p c) eqn:E; [exact IH | exact E].
Qed.

Lemma lstrip_fixed (p : char -> bool) (s : text) :
  head_ok p s -> lstrip_by p s = s.
Proof. destruct s as [|c s]; [reflexivity|]. cbn. intros ->. reflexivity. Qed.

Lemma lstrip_suffix (p : char -> bool) (s : text) :
  exists a, s = a ++ lstrip_by p s.
Proof.
  induction s as [|c s [a IH]]; [exists []; reflexivity|]. cbn.
  destruct (p c).
  - exists (c :: a). cbn. f_equal. exact IH.
  - exists []. reflexivity.
Qed.

Lemma rstrip_prefix (p : char -> bool) (s : text) :
  exists b, s = rstrip_by p s ++ b.
Proof.
  unfold rstrip_by. destruct (lstrip_suffix p (rev s)) as [a Ha].
  exists (rev a). rewrite <- rev_app_distr, <- Ha. symmetry. apply rev_involutive.
Qed.

Lemma rstrip_head_ok (p : char -> bool) (s : text) :
  head_ok p s -> head_ok p (rstrip_by p s).
Proof.
  intros H. destruct (rstrip_prefix p s) as [b Hb].
  destruct (rstrip_by p s) as [|c r]; [exact I|].
  rewrite Hb in H. exact H.
Qed.

Lemma rstrip_fixed (p : char -> bool) (s : text) :
  head_ok p (rev s) -> rstrip_by p s = s.
Proof.
  intros H. unfold rstrip_by. rewrite lstrip_fixed by exact H.
  apply rev_involutive.
Qed.

Lemma rstrip_last_ok (p : char -> bool) (s : text) :
  head_ok p (rev (rstrip_by p s)).
Proof.
  unfold rstrip_by. rewrite rev_involutive. apply lstrip_head_ok.
Qed.

Lemma str_strip_fixed (s : text) : str_strip (str_strip s) = str_strip s.
Proof.
  unfold str_strip at 1.
  rewrite lstrip_fixed.
  - apply rstrip_fixed. unfold str_strip. apply rstrip_last_ok.
  - unfold str_strip. apply rstrip_head_ok, lstrip_head_ok.
Qed.

Lemma str_strip_run_free (s : text) : run_free s -> run_free (str_strip s).
Proof.
  intros H. unfold str_strip.
  destruct (lstrip_suffix is_space s) as [a Ha].
  rewrite Ha in H. apply run_free_suffix in H.
  destruct (rstrip_prefix is_space (lstrip_by is_space s)) as [b Hb].
  rewrite Hb in H. apply run_free_prefix in H. exact H.
Qed.

(** *** Idempotence *)

Lemma markup_free_spec (s : text) : markup_free s = true -> free_of marker s.
Proof.
  unfold markup_free, free_of. rewrite forallb_forall, List.Forall_forall.
  intros H c Hc. apply negb_true_iff, H, Hc.
Qed.

Lemma needs_lit (X : char -> bool) (d : text) :
  match d with c :: _ => X c | [] => false end = true -> needs X (lit d).
Proof.
  destruct d as [|c d]; [discriminate|]. intros H.
  cbn [lit]. apply needs_seq_l, needs_chr, H.
Qed.

Lemma is_char_sub (X : char -> bool) (x : char) :
  X x = true -> forall c, is_char x c = true -> X c = true.
Proof.
  intros H c Hc. unfold is_char in Hc. apply N.eqb_eq in Hc. congruence.
Qed.

Lemma one_of_sub (X : char -> bool) (l : text) :
  forallb X l = true -> forall c, one_of l c = true -> X c = true.
Proof.
  rewrite forallb_forall. intros H c Hc. unfold one_of in Hc.
  apply existsb_exists in Hc. destruct Hc as (x & Hx & E).
  apply N.eqb_eq in E. subst. apply H, Hx.
Qed.

Lemma needs_wrapped (d : text) :
  match d with c :: _ => marker c | [] => false end = true ->
  needs marker (wrapped d).
Proof. intros H. unfold wrapped. apply needs_seq_l, needs_lit, H. Qed.

Lemma needs_heading : needs marker heading_re.
Proof.
  unfold heading_re. apply needs_seq_r, needs_seq_l, needs_rep.
  apply is_char_sub. vm_compute. reflexivity.
Qed.

Lemma needs_code_block : needs marker code_block_re.
Proof.
  unfold code_block_re. apply needs_seq_l, needs_lit. vm_compute. reflexivity.
Qed.

Lemma needs_bullet : needs marker bullet_re.
Proof.
  unfold bullet_re. apply needs_seq_r, needs_seq_r, needs_seq_l, needs_cls.
  apply one_of_sub. vm_compute. reflexivity.
Qed.

Lemma needs_numbered : needs marker numbered_re.
Proof.
  unfold numbered_re.
  apply needs_seq_r, needs_seq_r, needs_seq_r, needs_seq_l, needs_chr.
  vm_compute. reflexivity.
Qed.

Lemma needs_quote : needs marker quote_re.
Proof.
  unfold quote_re. apply needs_seq_r, needs_seq_l, needs_chr.
  vm_compute. reflexivity.
Qed.

Lemma needs_rule : needs marker rule_re.
Proof.
  unfold rule_re. apply needs_seq_r, needs_seq_l, needs_lit.
  vm_compute. reflexivity.
Qed.

Lemma sub_without_match (r : regex) (tmpl : list titem) (rest : text) :
  forall prev,
    search_from r prev rest = false -> sub_from r tmpl prev rest = rest.
Proof.
  unfold sub_from. induction rest as [|c rest IH]; intros prev H; cbn [search_from] in H.
  - destruct (match_at r prev [] false) eqn:E; [discriminate|].
    rewrite scan_end by exact E. reflexivity.
  - destruct (match_at r prev (c :: rest) false) eqn:E; [discriminate|].
    rewrite scan_miss by exact E. cbn [flat_map expand app]. f_equal.
    apply IH, H.
Qed.

Lemma search_free (X : char -> bool) (r : regex) (rest : text) :
  needs X r -> free_of X rest -> forall prev, search_from r prev rest = false.
Proof.
  intros Hn. induction rest as [|c rest IH]; intros Hfree prev; cbn [search_from].
  - unfold match_at. rewrite (needs_fail X r Hn) by exact Hfree. reflexivity.
  - unfold match_at. rewrite (needs_fail X r Hn) by exact Hfree.
    apply IH. inversion Hfree; assumption.
Qed.

(** A text in which the markup patterns match nowhere, without a run of
    three newlines and without white space at its ends, is left as it is. *)
Lemma strip_fixed_point (z : text) :
  settled z = true -> run_free z -> str_strip z = z ->
  _strip_markdown z = z.
Proof.
  intros Hset Hrun Hstrip. unfold settled, markup_patterns in Hset.
  cbn [forallb] in Hset.
  repeat (apply andb_true_iff in Hset;
          let H := fresh "H" in destruct Hset as [H Hset];
          apply negb_true_iff in H).
  unfold _strip_markdown, re_sub.
  unfold re_search in *.
  rewrite (sub_without_match heading_re) by assumption.
  rewrite (sub_without_match bold_re) by assumption.
  rewrite (sub_without_match italic_re) by assumption.
  rewrite (sub_without_match bold_us_re) by assumption.
  rewrite (sub_without_match italic_us_re) by assumption.
  rewrite (sub_without_match inline_code_re) by assumption.
  rewrite (sub_without_match code_block_re) by assumption.
  rewrite (sub_without_match bullet_re) by assumption.
  rewrite (sub_without_match numbered_re) by assumption.
  rewrite (sub_without_match quote_re) by assumption.
  rewrite (sub_without_match rule_re) by assumption.
  rewrite collapse_run_free by exact Hrun. exact Hstrip.
Qed.

(** A text without marker characters is settled. *)
Lemma markup_free_settled (z : text) : markup_free z = true -> settled z = true.
Proof.
  intros H. apply markup_free_spec in H.
  unfold settled, markup_patterns, re_search. cbn [forallb].
  unfold bold_re, italic_re, bold_us_re, italic_us_re, inline_code_re.
  rewrite (search_free marker heading_re z needs_heading H).
  rewrite (search_free marker (wrapped (py "**")) z) by
    first [apply needs_wrapped; vm_compute; reflexivity | exact H].
  rewrite (search_free marker (wrapped (py "*")) z) by
    first [apply needs_wrapped; vm_compute; reflexivity | exact H].
  rewrite (search_free marker (wrapped (py "__")) z) by
    first [apply needs_wrapped; vm_compute; reflexivity | exact H].
  rewrite (search_free marker (wrapped (py "_")) z) by
    first [apply needs_wrapped; vm_compute; reflexivity | exact H].
  rewrite (search_free marker (wrapped (py "`")) z) by
    first [apply needs_wrapped; vm_compute; reflexivity | exact H].
  rewrite (search_free marker code_block_re z needs_code_block H).
  rewrite (search_free marker bullet_re z needs_bullet H).
  rewrite (search_free marker numbered_re z needs_numbered H).
  rewrite (search_free marker quote_re z needs_quote H).
  rewrite (search_free marker rule_re z needs_rule H).
  reflexivity.
Qed.

Lemma strip_output (x : text) :
  run_free (_strip_markdown x)
  /\ str_strip (_strip_markdown x) = _strip_markdown x.
Proof.
  unfold _strip_markdown. split.
  - apply str_strip_run_free. unfold re_sub.
    match goal with
    | |- run_free (sub_from _ _ _ ?y) =>
      exact (proj1 (collapse_gives_run_free (length y) y None (Nat.le_refl _)))
    end.
  - apply str_strip_fixed.
Qed.

(** C1, as the code has it.  For every input in whose reduced form none of
    the markup patterns of the reducer matches any more, reducing the reduced
    form again changes nothing. *)
Theorem strip_is_idempotent_when_settled (x : text) :
  settled (_strip_markdown x) = true ->
  _strip_markdown (_strip_markdown x) = _strip_markdown x.
Proof.
  intros H. destruct (strip_output x) as [Hrun Hstrip].
  apply strip_fixed_point; [exact H | exact Hrun | exact Hstrip].
Qed.

Lemma strip_is_idempotent_when_settled_witness :
  _strip_markdown (_strip_markdown (py "**重要** な話。- 1. `x`"))
  = _strip_markdown (py "**重要** な話。- 1. `x`").
Proof.
  apply (strip_is_idempotent_when_settled (py "**重要** な話。- 1. `x`")).
  vm_compute. reflexivity.
Defined.

(** In particular the reducer is idempotent on every input whose reduced
    form holds none of the marker characters (number sign, asterisk,
    underscore, backquote, hyphen, plus, greater-than, full stop). *)
Corollary strip_is_idempotent_without_markers (x : text) :
  markup_free (_strip_markdown x) = true ->
  _strip_markdown (_strip_markdown x) = _strip_markdown x.
Proof.
  intros H. destruct (strip_output x) as [Hrun Hstrip].
  apply strip_fixed_point;
    [apply markup_free_settled, H | exact Hrun | exact Hstrip].
Qed.

(** C1 as stated fails: one pass removes one heading marker per line, so a
    second pass still finds something to remove. *)
Lemma strip_twice_differs :
  _strip_markdown (py "# # a") = py "# a"
  /\ _strip_markdown (_strip_markdown (py "# # a")) = py "a".
Proof. split; vm_compute; reflexivity. Qed.

(** C6 (the code departs from the claim).  The fenced block is not
    deleted: the step that unwraps inline code runs first and reads each
    fence as a backquote between two backquotes, so when the step that
    deletes code blocks runs there is no fence left.  Run on the input
    itself, that step deletes the block. *)
Theorem fenced_block_survives :
  _strip_markdown (py "```\ncode\n```") = py "`\ncode\n`"
  /\ re_sub inline_code_re [TGrp1] (py "```\ncode\n```") = py "`\ncode\n`"
  /\ re_sub code_block_re [] (py "`\ncode\n`") = py "`\ncode\n`"
  /\ re_sub code_block_re [] (py "```\ncode\n```") = [].
Proof.
  split; [vm_compute; reflexivity|].
  split; [vm_compute; reflexivity|].
  split; vm_compute; reflexivity.
Qed.

End ReducerFacts.

(** ** What the command transformer recognises *)

Section RecognitionFacts.
Import VoiceCommands.

Lemma head_ok_rstrip (q p : char -> bool) (s : text) :
  head_ok q s -> head_ok q (rstrip_by p s).
Proof.
  intros H. destruct (rstrip_prefix p s) as [b Hb].
  destruct (rstrip_by p s) as [|c r]; [exact I|].
  rewrite Hb in H. exact H.
Qed.

Lemma run_free_lstrip (p : char -> bool) (s : text) :
  run_free s -> run_free (lstrip_by p s).
Proof.
  intros H. destruct (lstrip_suffix p s) as [a Ha].
  rewrite Ha in H. exact (run_free_suffix _ _ H).
Qed.

Lemma run_free_rstrip (p : char -> bool) (s : text) :
  run_free s -> run_free (rstrip_by p s).
Proof.
  intros H. destruct (rstrip_prefix p s) as [b Hb].
  rewrite Hb in H. exact (run_free_prefix _ _ H).
Qed.

(** X1.  The text that an enabled processor returns has no three newlines
    in a row, does not start with a newline and does not end with white
    space, whatever the rules of the processor are. *)
Theorem process_output_is_tidy (self : processor) (t : text) :
  enabled self = true ->
  run_free (process self t)
  /\ head_ok (is_char nl) (process self t)
  /\ head_ok is_space (rev (process self t)).
Proof.
  intros He. unfold process. rewrite He. cbn [negb orb].
  destruct t as [|c t]; [repeat split|].
  set (x := apply_patterns (_patterns self) (c :: t)).
  split; [|split].
  - apply run_free_rstrip, run_free_lstrip. unfold re_sub.
    exact (proj1 (collapse_gives_run_free (length x) x None (Nat.le_refl _))).
  - apply head_ok_rstrip, lstrip_head_ok.
  - apply rstrip_last_ok.
Qed.

Lemma process_output_is_tidy_witness :
  let out := process (init true []) (py "メモ 改行 改行 改行 改行 続き 改行") in
  run_free out /\ head_ok (is_char nl) out /\ head_ok is_space (rev out).
Proof.
  exact (process_output_is_tidy (init true [])
           (py "メモ 改行 改行 改行 改行 続き 改行") eq_refl).
Defined.




(** Where the command pattern of a trigger is found. *)
Lemma search_cmd (trig rest : text) :
  forall prev,
    search_from (cmd_pattern trig) prev rest = true
    <-> exists pre post,
          rest = pre ++ trig ++ post
          /\ boundary_before (last_of prev pre) = true
          /\ boundary_after post = true.
Proof.
  assert (Hhere : forall prev rest,
            (exists o, cmd_match trig prev rest false = Some o)
            <-> exists post, rest = trig ++ post
                  /\ boundary_before prev = true /\ boundary_after post = true).
  { intros prev r. unfold cmd_match. split.
    - intros [o Ho]. destruct (boundary_before prev); [|discriminate].
      destruct (strip_prefix trig r) as [post|] eqn:E; [|discriminate].
      exists post. split; [apply strip_prefix_Some, E|]. split; [reflexivity|].
      destruct post as [|x post]; [reflexivity|]. cbn.
      destruct (is_boundary x); [reflexivity | discriminate].
    - intros (post & -> & Hb & Ha). rewrite Hb, strip_prefix_app.
      destruct post as [|x post]; [eexists; reflexivity|].
      cbn in Ha. rewrite Ha. eexists; reflexivity. }
  induction rest as [|c rest IH]; intros prev; cbn [search_from];
    rewrite match_at_cmd.
  - split.
    + intros H. destruct (cmd_match trig prev [] false) as [o|] eqn:E; [|discriminate].
      destruct (proj1 (Hhere prev []) (ex_intro _ o E)) as (post & Hp & Hb & Ha).
      exists [], post. auto.
    + intros (pre & post & Hp & Hb & Ha).
      destruct pre as [|x pre]; [|discriminate].
      destruct (proj2 (Hhere prev []) (ex_intro _ post (conj Hp (conj Hb Ha)))) as [o ->].
      reflexivity.
  - split.
    + intros H. destruct (cmd_match trig prev (c :: rest) false) as [o|] eqn:E.
      * destruct (proj1 (Hhere prev (c :: rest)) (ex_intro _ o E))
          as (post & Hp & Hb & Ha).
        exists [], post. auto.
      * apply IH in H. destruct H as (pre & post & -> & Hb & Ha).
        exists (c :: pre), post. auto.
    + intros (pre & post & Hp & Hb & Ha). destruct pre as [|x pre].
      * destruct (proj2 (Hhere prev (c :: rest))
                    (ex_intro _ post (conj Hp (conj Hb Ha)))) as [o ->].
        reflexivity.
      * cbn [app] in Hp. injection Hp as <- ->.
        destruct (cmd_match trig prev _ false); [reflexivity|].
        apply IH. exists pre, post. auto.
Qed.

(** X3.  [has_commands] answers yes exactly when the text is not empty and
    the trigger of some rule, built in or custom, stands in it as a word of
    its own. *)
Theorem has_commands_finds_standalone_trigger (custom : list rule) (t : text) :
  has_commands (init true custom) t = true
  <-> t <> [] /\ exists r, In r (custom ++ COMMANDS) /\ stands_alone (trigger r) t.
Proof.
  unfold has_commands, init. cbn [enabled _patterns negb orb].
  destruct t as [|c t].
  { split; [discriminate | intros [H _]; congruence]. }
  rewrite existsb_exists. split.
  - intros ([[pat trg] rep] & Hin & Hs). apply in_map_iff in Hin.
    destruct Hin as (r & Hr & Hin). injection Hr as <- <- <-.
    apply sort_desc_In in Hin. split; [discriminate|].
    exists r. split; [exact Hin|]. apply (search_cmd (trigger r) (c :: t) None), Hs.
  - intros (_ & r & Hin & Hs).
    exists (cmd_pattern (trigger r), trigger r, replacement r). split.
    + apply in_map_iff. exists r. split; [reflexivity|].
      apply sort_desc_In, Hin.
    + apply (search_cmd (trigger r) (c :: t) None), Hs.
Qed.



Lemma free_head_ok (p : char -> bool) (t : text) : free_of p t -> head_ok p t.
Proof. intros H. destruct t; [exact I|]. inversion H; assumption. Qed.

Lemma free_rev (p : char -> bool) (t : text) : free_of p t -> free_of p (rev t).
Proof. unfold free_of. apply Forall_rev. Qed.





End RecognitionFacts.

(** ** The table of rules and its listing *)

Section ListingFacts.
Import VoiceCommands.

Lemma insert_desc_perm {A : Type} (key : A -> nat) (x : A) (l : list A) :
  Permutation (insert_desc key x l) (x :: l).
Proof.
  induction l as [|y l IH]; cbn [insert_desc]; [reflexivity|].
  destruct (key x <? key y); [|reflexivity].
  rewrite IH. apply perm_swap.
Qed.

Lemma sort_desc_perm {A : Type} (key : A -> nat) (l : list A) :
  Permutation (sort_desc key l) l.
Proof.
  induction l as [|x l IH]; [reflexivity|].
  unfold sort_desc in *. cbn [fold_right].
  rewrite insert_desc_perm. apply perm_skip, IH.
Qed.

(** X5.  The table that [__init__] builds holds the custom rules and the
    built-in rules, each as often as it was given (a custom rule does not
    replace a built-in rule with the same trigger), with the longest triggers
    first, and [_patterns] has one entry for each rule of the table, in the
    order of the table. *)
Theorem init_keeps_every_rule (on : bool) (custom : list rule) :
  Permutation (_commands (init on custom)) (custom ++ COMMANDS)
  /\ sorted_desc (fun r => length (trigger r)) (_commands (init on custom))
  /\ map (fun p => (snd (fst p), snd p)) (_patterns (init on custom))
     = map (fun r => (trigger r, replacement r)) (_commands (init on custom))
  /\ length (_patterns (init on custom)) = length custom + length COMMANDS.
Proof.
  unfold init. cbn [_commands _patterns]. unfold sort_rules.
  split; [apply sort_desc_perm|].
  split; [apply sort_desc_sorted|].
  split.
  - rewrite map_map. reflexivity.
  - rewrite length_map, (Permutation_length (sort_desc_perm _ _)).
    apply length_app.
Qed.

(** The listing names the triggers of the table that were not seen before,
    each once. *)
Lemma list_from_commands (commands : list rule) :
  forall seen,
    List.NoDup (map command (list_from seen commands))
    /\ forall t, In t (map command (list_from seen commands))
                 <-> In t (map trigger commands) /\ t ∉ seen.
Proof.
  induction commands as [|r commands IH]; intros seen; cbn [list_from map].
  - split; [constructor|]. intros t. cbn. tauto.
  - destruct (bool_decide (trigger r ∈ seen)) eqn:E.
    + apply bool_decide_eq_true in E.
      destruct (IH seen) as [Hnd Hin]. split; [exact Hnd|].
      intros t. rewrite Hin. cbn [In]. split; [tauto|].
      intros [[<- | H] Hs]; [contradiction | tauto].
    + apply bool_decide_eq_false in E.
      destruct (IH ({[trigger r]} ∪ seen)) as [Hnd Hin].
      cbn [map command]. split.
      * constructor; [|exact Hnd].
        rewrite Hin. intros [_ H]. apply H.
        apply elem_of_union_l, elem_of_singleton. reflexivity.
      * intros t. cbn [In]. rewrite Hin. split.
        -- intros [<- | [H Hs]]; [tauto|]. split; [tauto|].
           intros Hc. apply Hs, elem_of_union_r, Hc.
        -- intros [[<- | H] Hs]; [tauto|].
           destruct (decide (trigger r = t)) as [<- | Hne]; [tauto|].
           right. split; [exact H|].
           rewrite elem_of_union, elem_of_singleton.
           intros [Ht | Hc]; [apply Hne; symmetry; exact Ht | exact (Hs Hc)].
Qed.

(** X6.  [list_commands] names every trigger of the table, and names it
    once, also when several rules share it. *)
Theorem list_commands_names_each_trigger_once (self : processor) :
  List.NoDup (map command (list_commands self))
  /\ forall t, In t (map command (list_commands self))
               <-> In t (map trigger (_commands self)).
Proof.
  unfold list_commands. destruct (list_from_commands (_commands self) ∅) as [Hnd Hin].
  split; [exact Hnd|]. intros t. rewrite Hin. split; [tauto|].
  intros H. split; [exact H | apply not_elem_of_empty].
Qed.

Lemma replace_from_out (c : char) (old new s : text) :
  ~ In c new -> ~ In c s -> forall k, ~ In c (replace_from old new s k).
Proof.
  intros Hnew. induction s as [|x s IH]; intros Hs k; cbn [replace_from]; [auto|].
  assert (Hs' : ~ In c s) by (intros H; apply Hs; right; exact H).
  destruct k as [|k]; [|apply IH, Hs'].
  destruct (startswith old (x :: s)).
  - rewrite in_app_iff. intros [H | H]; [auto | exact (IH Hs' _ H)].
  - intros [H | H]; [apply Hs; left; exact H | exact (IH Hs' _ H)].
Qed.

(** A replacement does not bring back a character that neither the text nor
    the new text holds. *)
Lemma str_replace_out (c : char) (old new s : text) :
  ~ In c new -> ~ In c s -> ~ In c (str_replace old new s).
Proof.
  intros Hnew Hs. unfold str_replace. destruct old as [|o old].
  - rewrite in_app_iff. intros [H | H]; [auto|].
    apply in_flat_map in H. destruct H as (x & Hx & [<- | H]); auto.
  - apply replace_from_out; assumption.
Qed.

Lemma replace_from_gone (c : char) (new s : text) :
  ~ In c new -> forall k, ~ In c (replace_from [c] new s k).
Proof.
  intros Hnew. induction s as [|x s IH]; intros k; cbn [replace_from]; [auto|].
  destruct k as [|k]; [|apply IH].
  cbn [startswith]. destruct (N.eqb c x) eqn:E; cbn [andb].
  - rewrite in_app_iff. intros [H | H]; [auto | exact (IH _ H)].
  - intros [H | H]; [|exact (IH _ H)].
    subst x. rewrite N.eqb_refl in E. discriminate.
Qed.

(** Replacing a character removes it. *)
Lemma str_replace_gone (c : char) (new s : text) :
  ~ In c new -> ~ In c (str_replace [c] new s).
Proof. intros H. unfold str_replace. apply replace_from_gone, H. Qed.

Lemma str_strip_out (c : char) (s : text) : ~ In c s -> ~ In c (str_strip s).
Proof.
  intros Hs H. apply Hs. unfold str_strip in H.
  destruct (lstrip_suffix is_space s) as [a Ha].
  destruct (rstrip_prefix is_space (lstrip_by is_space s)) as [b Hb].
  rewrite Ha, Hb, !in_app_iff. auto.
Qed.

Ltac absent := apply one_of_false; vm_compute; reflexivity.

Lemma describe_out (replacement : text) :
  ~ In nl (describe replacement)
  /\ ~ In (ch "*") (describe replacement)
  /\ ~ In (ch "`") (describe replacement).
Proof.
  unfold describe. split; [|split]; apply str_strip_out.
  - do 8 (apply str_replace_out; [absent|]).
    change (py "\n") with [nl]. apply str_replace_gone. absent.
  - do 5 (apply str_replace_out; [absent|]).
    change (py "*") with [ch "*"]. apply str_replace_gone. absent.
  - change (py "`") with [ch "`"]. apply str_replace_gone. absent.
Qed.

Lemma list_from_description (commands : list rule) (i : command_info) :
  forall seen,
    In i (list_from seen commands) ->
    exists r, In r commands /\ description i = describe (replacement r).
Proof.
  induction commands as [|r commands IH]; intros seen H; cbn [list_from] in H.
  - contradiction.
  - destruct (bool_decide (trigger r ∈ seen)).
    + destruct (IH _ H) as (r' & Hr & Hd). exists r'. split; [right|]; assumption.
    + destruct H as [<- | H].
      * exists r. split; [left|]; reflexivity.
      * destruct (IH _ H) as (r' & Hr & Hd). exists r'. split; [right|]; assumption.
Qed.

(** X7.  No description that [list_commands] shows holds a newline, an
    asterisk or a backquote, whatever the replacements of the rules are:
    each description is one line without emphasis or code markers. *)
Theorem descriptions_are_plain_lines (self : processor) (i : command_info) :
  In i (list_commands self) ->
  ~ In nl (description i)
  /\ ~ In (ch "*") (description i)
  /\ ~ In (ch "`") (description i).
Proof.
  intros H. destruct (list_from_description _ _ _ H) as (r & _ & ->).
  apply describe_out.
Qed.

Lemma descriptions_are_plain_lines_witness :
  let i := CommandInfo (py "コードブロック開始") (py "改行コードブロック改行") in
  ~ In nl (description i)
  /\ ~ In (ch "*") (description i)
  /\ ~ In (ch "`") (description i).
Proof.
  apply (descriptions_are_plain_lines (init true [])
           (CommandInfo (py "コードブロック開始") (py "改行コードブロック改行"))).
  vm_compute. left. reflexivity.
Defined.

End ListingFacts.

(** ** What the reducer and the profiles return *)

Section OutputFacts.
Import Reducer Profiles.

(** X8.  Whatever the input, the text that [_strip_markdown] returns has no
    three newlines in a row and no white space at either end. *)
Theorem strip_markdown_output_is_tidy (x : text) :
  run_free (_strip_markdown x)
  /\ head_ok is_space (_strip_markdown x)
  /\ head_ok is_space (rev (_strip_markdown x)).
Proof.
  unfold _strip_markdown.
  match goal with |- context [str_strip ?y] => set (z := y) end.
  split; [|split].
  - apply str_strip_run_free. unfold z, re_sub.
    match goal with
    | |- run_free (sub_from _ _ _ ?y) =>
      exact (proj1 (collapse_gives_run_free (length y) y None (Nat.le_refl _)))
    end.
  - unfold str_strip. apply rstrip_head_ok, lstrip_head_ok.
  - unfold str_strip. apply rstrip_last_ok.
Qed.

(** X9.  A text that holds none of the marker characters (number sign,
    asterisk, underscore, backquote, hyphen, plus, greater-than, full stop)
    loses nothing but white space: [_strip_markdown] returns it with its runs
    of newlines shortened to two and its ends trimmed. *)
Theorem strip_markdown_keeps_plain_text (x : text) :
  markup_free x = true ->
  _strip_markdown x = str_strip (re_sub blank_lines_re (literal (py "\n\n")) x).
Proof.
  intros H. apply markup_free_spec in H. unfold _strip_markdown.
  unfold bold_re, italic_re, bold_us_re, italic_us_re, inline_code_re.
  rewrite (re_sub_free marker heading_re [] x needs_heading H).
  rewrite (re_sub_free marker (wrapped (py "**")) [TGrp1] x)
    by first [apply needs_wrapped; vm_compute; reflexivity | exact H].
  rewrite (re_sub_free marker (wrapped (py "*")) [TGrp1] x)
    by first [apply needs_wrapped; vm_compute; reflexivity | exact H].
  rewrite (re_sub_free marker (wrapped (py "__")) [TGrp1] x)
    by first [apply needs_wrapped; vm_compute; reflexivity | exact H].
  rewrite (re_sub_free marker (wrapped (py "_")) [TGrp1] x)
    by first [apply needs_wrapped; vm_compute; reflexivity | exact H].
  rewrite (re_sub_free marker (wrapped (py "`")) [TGrp1] x)
    by first [apply needs_wrapped; vm_compute; reflexivity | exact H].
  rewrite (re_sub_free marker code_block_re [] x needs_code_block H).
  rewrite (re_sub_free marker bullet_re [] x needs_bullet H).
  rewrite (re_sub_free marker numbered_re [] x needs_numbered H).
  rewrite (re_sub_free marker quote_re [] x needs_quote H).
  rewrite (re_sub_free marker rule_re [] x needs_rule H).
  reflexivity.
Qed.

Lemma strip_markdown_keeps_plain_text_witness :
  _strip_markdown (py " 明日の予定\n\n\n\n会議は十時から ")
  = str_strip (re_sub blank_lines_re (literal (py "\n\n"))
                 (py " 明日の予定\n\n\n\n会議は十時から ")).
Proof.
  apply (strip_markdown_keeps_plain_text (py " 明日の予定\n\n\n\n会議は十時から ")).
  vm_compute. reflexivity.
Defined.

Lemma ends_with_nl_app (s : text) : ends_with_nl (s ++ [nl]) = true.
Proof. unfold ends_with_nl. rewrite rev_app_distr. reflexivity. Qed.

Lemma strip_never_ends_with_nl (s : text) : ends_with_nl (str_strip s) = false.
Proof.
  pose proof (rstrip_last_ok is_space (lstrip_by is_space s)) as H.
  unfold ends_with_nl. fold (str_strip s) in H.
  destruct (rev (str_strip s)) as [|c r]; [reflexivity|]. cbn in H.
  destruct (N.eqb c nl) eqn:E; [|reflexivity].
  apply N.eqb_eq in E. subst c. discriminate.
Qed.

(** X10.  With [add_trailing_newline] set, the text that [apply_profile]
    returns for a text that is not empty ends with a newline; a text that
    already ends with one is not given a second; and when [strip_markdown]
    is set too, the result is the reduced text followed by one newline, the
    newlines the text ended with being removed first. *)
Theorem apply_profile_ends_with_newline (t : text) (profile : gmap string value) :
  t <> [] ->
  truthy profile "add_trailing_newline" = true ->
  ends_with_nl (apply_profile t profile) = true
  /\ (truthy profile "strip_markdown" = false -> ends_with_nl t = true ->
      apply_profile t profile = t)
  /\ (truthy profile "strip_markdown" = true ->
      apply_profile t profile = _strip_markdown t ++ [nl]).
Proof.
  intros Hne Hnl. unfold apply_profile. destruct t as [|c t]; [congruence|].
  rewrite Hnl. destruct (truthy profile "strip_markdown").
  - assert (E : ends_with_nl (_strip_markdown (c :: t)) = false)
      by (unfold _strip_markdown; apply strip_never_ends_with_nl).
    rewrite E.
    split; [apply ends_with_nl_app|]. split; [discriminate | reflexivity].
  - destruct (ends_with_nl (c :: t)) eqn:E.
    + split; [exact E|]. split; [reflexivity | discriminate].
    + split; [apply ends_with_nl_app|]. split; [discriminate | discriminate].
Qed.

Lemma apply_profile_ends_with_newline_witness :
  ends_with_nl (apply_profile (py "# 件名\n\n本文です。\n") (entry "メール" "plain" true true)) = true
  /\ apply_profile (py "# 件名\n\n本文です。\n") (entry "メール" "plain" true true)
     = py "件名\n\n本文です。\n".
Proof.
  destruct (apply_profile_ends_with_newline (py "# 件名\n\n本文です。\n")
              (entry "メール" "plain" true true))
    as (H1 & _ & H3); [vm_compute; discriminate | reflexivity |].
  split; [exact H1|]. rewrite H3 by reflexivity. vm_compute. reflexivity.
Defined.

Lemma table_get_In (k : text) (t : list (text * nat)) (r : nat) :
  table_get k t = Some r -> In (k, r) t.
Proof.
  induction t as [|[k' r'] t IH]; cbn [table_get]; [discriminate|].
  unfold text_eqb. destruct (bool_decide (k = k')) eqn:E.
  - apply bool_decide_eq_true in E. subst k'. intros [= ->]. left. reflexivity.
  - intros H. right. apply IH, H.
Qed.

Lemma table_get_None (k : text) (t : list (text * nat)) :
  (forall k' r, In (k', r) t -> k' <> k) -> table_get k t = None.
Proof.
  induction t as [|[k' r'] t IH]; intros H; cbn [table_get]; [reflexivity|].
  unfold text_eqb. rewrite bool_decide_eq_false_2.
  - apply IH. intros k'' r Hin. apply (H k'' r). right. exact Hin.
  - intros ->. apply (H k' r'); [left|]; reflexivity.
Qed.

Lemma find_None {A : Type} (f : A -> bool) (l : list A) :
  (forall x, In x l -> f x = false) -> find f l = None.
Proof.
  induction l as [|x l IH]; intros H; cbn [find]; [reflexivity|].
  rewrite (H x) by (left; reflexivity). apply IH.
  intros y Hy. apply H. right. exact Hy.
Qed.

(** X11.  For a name that is no key of the table and that neither contains
    a key nor is contained in one (letter case apart), [get_profile] returns
    a new dict: the entries of [FALLBACK_PROFILE] and the name under
    [_app_name].  The dicts that existed, [FALLBACK_PROFILE] among them, are
    as they were.  The name and the keys are ASCII, where [str.lower()] is
    the lowering of the letters A to Z. *)
Theorem unknown_app_gets_a_copy (self : manager) (name active : text) (st : store) :
  enabled self = true ->
  name <> [] ->
  ascii_only name = true ->
  forallb (unrelated name) (_profiles self) = true ->
  objs st !! next st = None ->
  let '(r, st') := get_profile self (Some name) active st in
  r = next st
  /\ objs st' !! r
     = Some (<["_app_name" := VStr name]> (default ∅ (objs st !! FALLBACK_PROFILE)))
  /\ (forall r', is_Some (objs st !! r') -> objs st' !! r' = objs st !! r')
  /\ next st' = S (next st).
Proof.
  intros He Hne _ Hkeys Hfresh. unfold get_profile. rewrite He. cbn [negb].
  destruct name as [|c name]; [congruence|].
  rewrite forallb_forall in Hkeys.
  assert (Hk : forall k r, In (k, r) (_profiles self) ->
                 k <> c :: name /\ partial_match (lower (c :: name)) (k, r) = false).
  { intros k r Hin. specialize (Hkeys _ Hin). unfold unrelated in Hkeys.
    apply andb_true_iff in Hkeys. destruct Hkeys as [Hkeys H3].
    apply andb_true_iff in Hkeys. destruct Hkeys as [_ H2].
    apply negb_true_iff in H2, H3. split; [|exact H3].
    cbn [fst] in H2. unfold text_eqb in H2. apply bool_decide_eq_false in H2. exact H2. }
  rewrite table_get_None by (intros k r Hin; apply (Hk k r Hin)).
  rewrite find_None by (intros [k r] Hin; apply (Hk k r Hin)).
  unfold copy_dict, set_key. cbn [objs next].
  split; [reflexivity|]. split; [|split; [|reflexivity]].
  - rewrite lookup_alter_eq, lookup_insert_eq. reflexivity.
  - intros r' [d Hd].
    assert (Hr : next st <> r') by (intros <-; congruence).
    rewrite lookup_alter_ne by exact Hr.
    rewrite lookup_insert_ne by exact Hr. reflexivity.
Qed.

Lemma unknown_app_gets_a_copy_witness :
  let '(r, st') := get_profile (init [] true) (Some (py "Zoom")) [] module_store in
  r = next module_store
  /\ objs st' !! r
     = Some (<["_app_name" := VStr (py "Zoom")]>
               (default ∅ (objs module_store !! FALLBACK_PROFILE)))
  /\ (forall r', is_Some (objs module_store !! r') ->
                 objs st' !! r' = objs module_store !! r')
  /\ next st' = S (next module_store).
Proof.
  apply (unknown_app_gets_a_copy (init [] true) (py "Zoom") [] module_store).
  - reflexivity.
  - vm_compute. discriminate.
  - vm_compute. reflexivity.
  - vm_compute. reflexivity.
  - vm_compute. reflexivity.
Defined.

(** X12.  Whichever way [get_profile] finds the profile of a name that is
    not empty (the key itself, a partial match or the copy of the fallback),
    the dict it returns holds that name under [_app_name]; the name is the
    one given, or the active application when none is given. *)
Theorem get_profile_records_the_name (self : manager) (name other : text) (st : store) :
  enabled self = true ->
  name <> [] ->
  live st self ->
  (let '(r, st') := get_profile self (Some name) other st in
   app_name_of st' r = Some (VStr name))
  /\ (let '(r, st') := get_profile self None name st in
      app_name_of st' r = Some (VStr name)).
Proof.
  intros He Hne Hlive. unfold live in Hlive. rewrite List.Forall_forall in Hlive.
  assert (Hset : forall r, is_Some (objs st !! r) ->
            app_name_of (set_key st r "_app_name" (VStr name)) r = Some (VStr name)).
  { intros r [d Hd]. unfold app_name_of, set_key. cbn [objs].
    rewrite lookup_alter_eq, Hd. cbn. apply lookup_insert_eq. }
  assert (H : let '(r, st') := get_profile self (Some name) other st in
              app_name_of st' r = Some (VStr name)).
  { unfold get_profile. rewrite He. cbn [negb].
    destruct name as [|c name]; [congruence|].
    destruct (table_get (c :: name) (_profiles self)) as [r|] eqn:E.
    - apply table_get_In in E. apply Hset. exact (Hlive _ E).
    - destruct (find _ (_profiles self)) as [[k r]|] eqn:F.
      + apply find_some in F. destruct F as [F _]. apply Hset. exact (Hlive _ F).
      + unfold copy_dict, set_key, app_name_of. cbn [objs next].
        rewrite lookup_alter_eq, lookup_insert_eq. cbn. apply lookup_insert_eq. }
  split; [exact H|].
  unfold get_profile in *. rewrite He in *. cbn [negb] in *. exact H.
Qed.

Lemma live_check (st : store) (self : manager) :
  forallb (fun kp => bool_decide (is_Some (objs st !! snd kp))) (_profiles self) = true ->
  live st self.
Proof.
  intros H. unfold live. apply List.Forall_forall. intros kp Hin.
  rewrite forallb_forall in H. specialize (H kp Hin).
  apply bool_decide_eq_true in H. exact H.
Qed.

Lemma get_profile_records_the_name_witness :
  (let '(r, st') := get_profile (init [] true) (Some (py "Slack")) [] module_store in
   app_name_of st' r = Some (VStr (py "Slack")))
  /\ (let '(r, st') := get_profile (init [] true) None (py "Slack") module_store in
      app_name_of st' r = Some (VStr (py "Slack"))).
Proof.
  apply (get_profile_records_the_name (init [] true) (py "Slack") [] module_store).
  - reflexivity.
  - vm_compute. discriminate.
  - apply live_check. vm_compute. reflexivity.
Defined.

Lemma forallb_In {A : Type} (f : A -> bool) (l : list A) (x : A) :
  forallb f l = true -> In x l -> f x = true.
Proof. intros H Hx. rewrite forallb_forall in H. apply H, Hx. Qed.

(** X13.  With the built-in table, a name that differs from a key only in
    the case of its letters gets the profile of that key. *)
Theorem app_names_match_whatever_the_case (name k : text) (r : nat) (active : text)
    (st : store) :
  In (k, r) DEFAULT_PROFILES ->
  ascii_only name = true ->
  lower name = lower k ->
  fst (get_profile (init [] true) (Some name) active st) = r.
Proof.
  intros Hin _ Hlow.
  assert (A : forallb (fun kr =>
                match find (partial_match (lower (fst kr))) DEFAULT_PROFILES with
                | Some (_, r') => Nat.eqb r' (snd kr)
                | None => false
                end) DEFAULT_PROFILES = true) by (vm_compute; reflexivity).
  assert (B : forallb (fun kr1 =>
                forallb (fun kr2 =>
                  implb (text_eqb (lower (fst kr1)) (lower (fst kr2)))
                        (Nat.eqb (snd kr1) (snd kr2))) DEFAULT_PROFILES)
                DEFAULT_PROFILES = true) by (vm_compute; reflexivity).
  assert (C : forallb (fun kr => negb (text_eqb (lower (fst kr)) [])) DEFAULT_PROFILES
              = true) by (vm_compute; reflexivity).
  unfold get_profile. change (_profiles (init [] true)) with DEFAULT_PROFILES.
  cbn [enabled init negb].
  destruct name as [|c name].
  { pose proof (forallb_In _ _ _ C Hin) as H. cbn [fst] in H.
    rewrite <- Hlow in H. discriminate. }
  destruct (table_get (c :: name) DEFAULT_PROFILES) as [r'|] eqn:E.
  - apply table_get_In in E. cbn [fst].
    pose proof (forallb_In _ _ _ (forallb_In _ _ _ B E) Hin) as H. cbn [fst snd] in H.
    rewrite Hlow in H. unfold text_eqb in H.
    rewrite bool_decide_eq_true_2 in H by reflexivity.
    apply Nat.eqb_eq, H.
  - rewrite Hlow. pose proof (forallb_In _ _ _ A Hin) as H. cbn [fst snd] in H.
    unfold partial_match in H.
    destruct (find _ DEFAULT_PROFILES) as [[k' r']|]; [|discriminate].
    cbn [fst]. apply Nat.eqb_eq, H.
Qed.

Lemma app_names_match_whatever_the_case_witness :
  fst (get_profile (init [] true) (Some (py "SLACK")) [] module_store) = 4.
Proof.
  apply (app_names_match_whatever_the_case (py "SLACK") (py "Slack") 4 [] module_store).
  - vm_compute. do 4 right. left. reflexivity.
  - vm_compute. reflexivity.
  - vm_compute. reflexivity.
Defined.

End OutputFacts.

(** ** What the formatters return *)

Section FormatterUse.
Import Formatters.

Lemma startswith_strip_prefix (a s : text) :
  startswith a s = false -> strip_prefix a s = None.
Proof.
  revert s. induction a as [|x a IH]; intros s H; [discriminate|].
  destruct s as [|y s]; [reflexivity|]. cbn in *.
  rewrite N.eqb_sym. destruct (N.eqb x y); [apply IH, H | reflexivity].
Qed.

Lemma filler_no_match_start (f t : text) (adv : bool) :
  strip_prefix f t = None -> match_at (filler_re f) None t adv = None.
Proof.
  intros H. unfold match_at, filler_re. cbn [rmatch].
  rewrite lit_strip, H. reflexivity.
Qed.

Lemma filler_no_match_inside (f t : text) (c : char) (adv : bool) :
  is_space c = false -> match_at (filler_re f) (Some c) t adv = None.
Proof. intros H. unfold match_at, filler_re. cbn [rmatch]. rewrite H. reflexivity. Qed.

Lemma filler_search_unspaced (f t : text) :
  free_of is_space t ->
  forall prev,
    match prev with
    | None => strip_prefix f t = None
    | Some c => is_space c = false
    end ->
    search_from (filler_re f) prev t = false.
Proof.
  induction t as [|x t IH]; intros Hfree prev Hprev; cbn [search_from].
  - destruct prev as [c|];
      [rewrite filler_no_match_inside by exact Hprev
      | rewrite filler_no_match_start by exact Hprev]; reflexivity.
  - inversion Hfree as [|? ? Hx Ht]; subst.
    destruct prev as [c|];
      [rewrite filler_no_match_inside by exact Hprev
      | rewrite filler_no_match_start by exact Hprev];
      apply (IH Ht (Some x)); exact Hx.
Qed.

Lemma fold_left_fixed {A B : Type} (f : A -> B -> A) (l : list B) (a : A) :
  (forall b, In b l -> f a b = a) -> fold_left f l a = a.
Proof.
  induction l as [|b l IH]; intros H; [reflexivity|]. cbn [fold_left].
  rewrite (H b) by (left; reflexivity). apply IH.
  intros b' Hb'. apply H. right. exact Hb'.
Qed.

Lemma needs_spaces : needs is_space spaces_re.
Proof.
  unfold spaces_re. apply needs_rep. apply one_of_sub. vm_compute. reflexivity.
Qed.

Lemma needs_empty_lines : needs is_space empty_lines_re.
Proof. unfold empty_lines_re. apply needs_seq_l, needs_chr. reflexivity. Qed.

(** X14.  The offline formatter removes a filler only at the start of the
    text or after white space.  So a text without white space that does not
    start with a filler is returned as it is, fillers included. *)
Theorem offline_keeps_unspaced_text (t : text) (on_progress : bool) :
  free_of is_space t ->
  existsb (fun filler => startswith filler t) FILLERS = false ->
  fst (offline_format_text t on_progress) = t.
Proof.
  intros Hfree Hstart. unfold offline_format_text. cbn [fst].
  rewrite fold_left_fixed.
  - rewrite (re_sub_free is_space spaces_re _ t needs_spaces Hfree).
    rewrite (re_sub_free is_space empty_lines_re _ t needs_empty_lines Hfree).
    unfold str_strip. rewrite lstrip_fixed by (apply free_head_ok, Hfree).
    apply rstrip_fixed, free_head_ok, free_rev, Hfree.
  - intros f Hf. apply sort_desc_In in Hf.
    unfold re_sub. apply sub_without_match.
    apply filler_search_unspaced; [exact Hfree|].
    apply startswith_strip_prefix.
    destruct (startswith f t) eqn:E; [|reflexivity].
    assert (existsb (fun filler => startswith filler t) FILLERS = true); [|congruence].
    apply existsb_exists. exists f. split; assumption.
Qed.

Lemma offline_keeps_unspaced_text_witness :
  fst (offline_format_text (py "今日はえーと晴れです") true) = py "今日はえーと晴れです".
Proof.
  apply (offline_keeps_unspaced_text (py "今日はえーと晴れです") true).
  - unfold free_of. apply List.Forall_forall. intros c Hc.
    destruct (is_space c) eqn:E; [|reflexivity].
    assert (H : existsb is_space (py "今日はえーと晴れです") = true)
      by (apply existsb_exists; exists c; split; assumption).
    vm_compute in H. discriminate.
  - vm_compute. reflexivity.
Defined.

(** X15.  [_get_client] builds the client once: when it has returned a
    client, every later call returns without asking for a new one and leaves
    the formatter as it is; when building the client has raised, the
    formatter is left without a client, so that the next call tries again. *)
Theorem client_is_built_once (w : remote) (self : formatter) :
  match _get_client w self with
  | (Ok _, self') =>
    _client self' = true /\ forall w', _get_client w' self' = (Ok tt, self')
  | (Raise e, self') =>
    self' = self /\ _client self = false /\ new_client w = Raise e
  end.
Proof.
  unfold _get_client. destruct (_client self) eqn:E.
  - split; [exact E|]. intros w'. rewrite E. reflexivity.
  - destruct (new_client w) as [[]|e].
    + split; [reflexivity|]. intros w'. reflexivity.
    + repeat split.
Qed.

(** [format_text], with its two requests named. *)
Lemma format_text_requests (w : remote) (self : formatter) (raw_text : text)
    (on_progress : bool) :
  format_text w self raw_text on_progress
  = if is_blank raw_text then (Ok [], self, [])
    else
      let log := notify on_progress (Msg (py "テキストを整形中...")) in
      match _get_client w self with
      | (Raise e, self) => (Raise e, self, log)
      | (Ok _, self) =>
        let api_error e := Msg (py "Gemini API エラー: " ++ str_of e) in
        let '(result, log) :=
          match first_request w raw_text with
          | Ok response => (text_of response raw_text, log)
          | Raise (ImportError _) =>
            match second_request w raw_text with
            | Ok response => (text_of response raw_text, log)
            | Raise e => (raw_text, log ++ notify on_progress (api_error e))
            end
          | Raise e => (raw_text, log ++ notify on_progress (api_error e))
          end in
        (Ok result, self, log ++ notify on_progress (MsgTimed (py "整形完了")))
      end.
Proof.
  unfold format_text, first_request, second_request, user_prompt. reflexivity.
Qed.

(** X16.  A response whose text is not empty but holds white space only is
    taken as it is: [format_text] returns the empty string, not the text it
    was given. *)
Theorem blank_response_gives_empty_text (w : remote) (self : formatter)
    (raw_text resp : text) (on_progress : bool) :
  (_client self = true \/ new_client w = Ok tt) ->
  is_blank raw_text = false ->
  first_request w raw_text = Ok (Some resp) ->
  resp <> [] ->
  is_blank resp = true ->
  fst (fst (format_text w self raw_text on_progress)) = Ok [].
Proof.
  intros Hc Hb Hreq Hne Hblank.
  assert (Hg : exists self', _get_client w self = (Ok tt, self')).
  { unfold _get_client. destruct Hc as [-> | ->]; eauto.
    destruct (_client self); eauto. }
  destruct Hg as [self' Hg].
  assert (Ht : text_of (Some resp) raw_text = []).
  { unfold text_of. destruct resp as [|c resp]; [congruence|].
    unfold is_blank in Hblank.
    destruct (str_strip (c :: resp)); [reflexivity | discriminate]. }
  rewrite format_text_requests, Hb, Hg. cbn zeta. rewrite Hreq, Ht. reflexivity.
Qed.

Lemma blank_response_gives_empty_text_witness :
  fst (fst (format_text
              (Remote (Ok tt) (Ok tt) (fun _ => Ok (Some (py " \n"))) (fun _ => Ok None))
              (Formatter (py "key") (py "gemini-2.0-flash") false)
              (py "こんにちは") true))
  = Ok [].
Proof.
  apply (blank_response_gives_empty_text _ _ (py "こんにちは") (py " \n") true).
  - right. reflexivity.
  - vm_compute. reflexivity.
  - vm_compute. reflexivity.
  - vm_compute. discriminate.
  - vm_compute. reflexivity.
Defined.

End FormatterUse.

(** ** Taps of the right Command key *)

Section TapFacts.
Import Gesture.

Lemma idle_step (d : detector) (flags : N) (now : Q) :
  _rcmd_was_pressed d = false ->
  N.land flags CMD_FLAG = 0%N \/ N.land flags RIGHT_CMD_FLAG = 0%N ->
  flags_changed_callback d flags now = (d, false).
Proof.
  intros Hup Hf. unfold flags_changed_callback. rewrite Hup.
  assert (E : negb (N.eqb (N.land flags CMD_FLAG) 0)
              && negb (N.eqb (N.land flags RIGHT_CMD_FLAG) 0) = false).
  { destruct Hf as [-> | ->]; [reflexivity | apply andb_false_r]. }
  rewrite E. cbn. destruct d as [p l u]. cbn in Hup. subst u. reflexivity.
Qed.

(** X17.  Events in which the right Command key is not down (the Command
    mask or the device mask of the right key is clear) never emit a trigger
    and leave the detector as it was: taps of the left Command key and
    changes of other modifier keys go unnoticed. *)
Theorem other_keys_never_trigger (d : detector) (events : list (N * Q)) :
  _rcmd_was_pressed d = false ->
  Forall (fun e => N.land (fst e) CMD_FLAG = 0%N
                   \/ N.land (fst e) RIGHT_CMD_FLAG = 0%N) events ->
  run d events = (d, repeat false (length events)).
Proof.
  intros Hup H. induction H as [|[flags now] events Hf _ IH]; [reflexivity|].
  cbn [run]. rewrite (idle_step d flags now Hup Hf), IH. reflexivity.
Qed.

Lemma other_keys_never_trigger_witness :
  run initial [ (LEFT_CMD_DOWN, 100); (RELEASED, 100 + (1 # 10));
                (LEFT_CMD_DOWN, 100 + (2 # 10)); (RELEASED, 100 + (3 # 10)) ]%Q
  = (initial, [false; false; false; false]).
Proof.
  apply (other_keys_never_trigger initial
           [ (LEFT_CMD_DOWN, 100); (RELEASED, 100 + (1 # 10));
             (LEFT_CMD_DOWN, 100 + (2 # 10)); (RELEASED, 100 + (3 # 10)) ]%Q).
  - reflexivity.
  - repeat (constructor; [first [left; reflexivity | right; reflexivity]|]).
    constructor.
Defined.

Lemma Qminus_0 (x : Q) : (x - 0 == x)%Q.
Proof. unfold Qminus. change (- 0)%Q with 0%Q. apply Qplus_0_r. Qed.

(** X18.  Two taps, the second released less than the double-tap interval
    after the first, emit one trigger, at the release of the second tap, and
    the detector forgets them: a third tap emits nothing and is the first of
    a new pair, which a fourth tap completes.  The clock reads at least half
    a second, as the time since the epoch does. *)
Theorem taps_trigger_in_pairs (d : detector) (t0 t1 t2 t3 t4 t5 t6 t7 : Q) :
  _rcmd_was_pressed d = false ->
  (DOUBLE_TAP_INTERVAL <= t1 - _rcmd_last_tap d)%Q ->
  (DOUBLE_TAP_INTERVAL <= t5)%Q ->
  (t1 - t0 < TAP_THRESHOLD)%Q ->
  (t3 - t2 < TAP_THRESHOLD)%Q ->
  (t5 - t4 < TAP_THRESHOLD)%Q ->
  (t7 - t6 < TAP_THRESHOLD)%Q ->
  (t3 - t1 < DOUBLE_TAP_INTERVAL)%Q ->
  (t7 - t5 < DOUBLE_TAP_INTERVAL)%Q ->
  run d [(PRESSED, t0); (RELEASED, t1); (PRESSED, t2); (RELEASED, t3);
         (PRESSED, t4); (RELEASED, t5); (PRESSED, t6); (RELEASED, t7)]
  = (Detector t6 0 false, [false; false; false; true; false; false; false; true]).
Proof.
  intros Hup Hfirst Hclock Htap1 Htap2 Htap3 Htap4 Hpair1 Hpair2.
  assert (Hthird : (DOUBLE_TAP_INTERVAL <= t5 - 0)%Q) by (rewrite Qminus_0; exact Hclock).
  apply Qltb_lt in Htap1, Htap2, Htap3, Htap4, Hpair1, Hpair2.
  apply Qltb_ge in Hfirst, Hthird.
  unfold run.
  rewrite (press_step d t0 Hup).
  rewrite release_step by reflexivity. cbn [_rcmd_press_time _rcmd_last_tap].
  rewrite Htap1, Hfirst.
  rewrite press_step by reflexivity. cbn [_rcmd_last_tap].
  rewrite release_step by reflexivity. cbn [_rcmd_press_time _rcmd_last_tap].
  rewrite Htap2, Hpair1.
  rewrite press_step by reflexivity. cbn [_rcmd_last_tap].
  rewrite release_step by reflexivity. cbn [_rcmd_press_time _rcmd_last_tap].
  rewrite Htap3, Hthird.
  rewrite press_step by reflexivity. cbn [_rcmd_last_tap].
  rewrite release_step by reflexivity. cbn [_rcmd_press_time _rcmd_last_tap].
  rewrite Htap4, Hpair2. reflexivity.
Qed.

Lemma taps_trigger_in_pairs_witness :
  run initial [ (PRESSED, 100); (RELEASED, 100 + (1 # 10));
                (PRESSED, 100 + (2 # 10)); (RELEASED, 100 + (3 # 10));
                (PRESSED, 100 + (4 # 10)); (RELEASED, 100 + (5 # 10));
                (PRESSED, 100 + (6 # 10)); (RELEASED, 100 + (7 # 10)) ]%Q
  = (Detector (100 + (6 # 10)) 0 false,
     [false; false; false; true; false; false; false; true]).
Proof.
  apply (taps_trigger_in_pairs initial 100 (100 + (1 # 10)) (100 + (2 # 10))
           (100 + (3 # 10)) (100 + (4 # 10)) (100 + (5 # 10)) (100 + (6 # 10))
           (100 + (7 # 10)));
    first [reflexivity | vm_compute; discriminate].
Defined.

End TapFacts.

(** ** The recorder and the transcript *)

Section RecordingFacts.
Import Session Formatters Recognition.

Lemma feed_frames (fs : list nat) :
  forall r,
    rec_recording r = true ->
    fold_left (fun r f => _audio_callback f r) fs r
    = AudioRecorder true (_frames r ++ fs) (_stream r).
Proof.
  induction fs as [|f fs IH]; intros r Hr.
  - cbn. rewrite app_nil_r. destruct r; cbn in *; subst; reflexivity.
  - cbn [fold_left]. rewrite IH.
    + unfold _audio_callback. rewrite Hr. cbn. rewrite <- app_assoc. reflexivity.
    + unfold _audio_callback. rewrite Hr. reflexivity.
Qed.

(** X19.  A recording holds the frames that arrive between [start] and
    [stop], in order, and nothing of an earlier recording; [stop] names a
    file exactly when there is at least one frame, leaves the recorder
    stopped with its stream closed, and a second [stop] returns the empty
    string.  A frame that arrives while the recorder is stopped is
    dropped. *)
Theorem recording_holds_the_frames_between (w : world) (r : audio_recorder)
    (frames : list nat) (late : nat) :
  rec_recording r = false ->
  let r1 := fold_left (fun r f => _audio_callback f r) frames (start r) in
  let '(path, r2) := stop w r1 in
  _frames r1 = frames
  /\ path = match frames with [] => [] | _ => tmp_name w end
  /\ rec_recording r2 = false /\ _stream r2 = false
  /\ stop w r2 = ([], r2)
  /\ _audio_callback late r2 = r2
  /\ _audio_callback late r = r.
Proof.
  intros Hr. cbn zeta. unfold start. rewrite Hr.
  rewrite feed_frames by reflexivity. cbn [_frames _stream List.app].
  unfold stop, _audio_callback. cbn. rewrite Hr.
  destruct frames; repeat split.
Qed.

Lemma recording_holds_the_frames_between_witness :
  let r1 := fold_left (fun r f => _audio_callback f r) [1; 2; 3]
              (start (AudioRecorder false [7] false)) in
  let '(path, r2) := stop calm_world r1 in
  _frames r1 = [1; 2; 3]
  /\ path = tmp_name calm_world
  /\ rec_recording r2 = false /\ _stream r2 = false
  /\ stop calm_world r2 = ([], r2)
  /\ _audio_callback 4 r2 = r2
  /\ _audio_callback 4 (AudioRecorder false [7] false) = AudioRecorder false [7] false.
Proof.
  exact (recording_holds_the_frames_between calm_world
           (AudioRecorder false [7] false) [1; 2; 3] 4 eq_refl).
Defined.

Lemma lstrip_nil (p : char -> bool) (s : text) :
  lstrip_by p s = [] <-> forallb p s = true.
Proof.
  induction s as [|c s IH]; cbn; [tauto|].
  destruct (p c); cbn; [exact IH|]. split; discriminate.
Qed.

Lemma rstrip_nil (p : char -> bool) (s : text) :
  rstrip_by p s = [] <-> forallb p s = true.
Proof.
  unfold rstrip_by. split.
  - intros H. apply (f_equal (@rev char)) in H. rewrite rev_involutive in H.
    cbn in H. apply lstrip_nil in H. rewrite forallb_forall in *.
    intros x Hx. apply H, in_rev. rewrite rev_involutive. exact Hx.
  - intros H. assert (H' : forallb p (rev s) = true).
    { rewrite forallb_forall in *. intros x Hx. apply H, in_rev, Hx. }
    apply lstrip_nil in H'. rewrite H'. reflexivity.
Qed.

(** A text is blank when all its characters are white space. *)
Lemma is_blank_spaces (s : text) : is_blank s = true <-> forallb is_space s = true.
Proof.
  unfold is_blank, str_strip. split.
  - intros H.
    destruct (rstrip_by is_space (lstrip_by is_space s)) eqn:E; [|discriminate].
    apply rstrip_nil in E.
    pose proof (lstrip_head_ok is_space s) as Hh.
    destruct (lstrip_by is_space s) as [|c l] eqn:El.
    + apply lstrip_nil, El.
    + cbn in Hh, E. rewrite Hh in E. discriminate.
  - intros H. apply lstrip_nil in H. rewrite H. reflexivity.
Qed.

Lemma strip_blank (s : text) : forallb is_space (str_strip s) = true -> str_strip s = [].
Proof.
  intros H. pose proof (rstrip_head_ok is_space _ (lstrip_head_ok is_space s)) as Hh.
  fold (str_strip s) in Hh. destruct (str_strip s) as [|c l]; [reflexivity|].
  cbn in H, Hh. rewrite Hh in H. discriminate.
Qed.

Lemma join_spaces (l : list text) :
  forallb is_space (join [nl] l) = true <-> Forall (fun s => forallb is_space s = true) l.
Proof.
  induction l as [|s l IH]; [cbn; split; [constructor | reflexivity]|].
  cbn [join]. destruct l as [|s' l].
  - split; [intros H; constructor; [exact H | constructor] | intros H; inversion H; assumption].
  - rewrite !forallb_app. cbn [forallb]. change (is_space nl) with true. cbn [andb].
    rewrite andb_true_iff, IH. split.
    + intros [H1 H2]. constructor; assumption.
    + intros H. inversion H; subst. split; assumption.
Qed.

(** X20.  The transcript is blank, so that the run ends with the notice
    that no speech was detected, exactly when every segment is blank; there
    may be no segment at all. *)
Theorem transcript_is_blank_when_segments_are (segments : list text) :
  is_blank (transcript segments) = true
  <-> Forall (fun s => is_blank s = true) segments.
Proof.
  unfold transcript. rewrite is_blank_spaces, join_spaces, Forall_map.
  apply Forall_iff. intros s. cbn. split.
  - intros H. apply strip_blank in H. unfold is_blank. rewrite H. reflexivity.
  - intros H. unfold is_blank in H. destruct (str_strip s); [reflexivity | discriminate].
Qed.

End RecordingFacts.

(** ** The configuration *)

Section ConfigFacts.
Import Config.


(** X22.  [get_api_key] prefers the key of the configuration file: a key
    that is a string and not empty is returned whatever the environment
    holds.  The environment variable is used when the file is absent or
    unreadable, when it has no key, or when its key is the empty string; it
    counts as the empty string when it is not set. *)
Theorem api_key_of_the_file_comes_first (dir : text) (f : config_file)
    (env : option text) :
  (forall saved key,
     f = Holds saved -> saved !! "gemini_api_key" = Some (JStr key) -> key <> [] ->
     get_api_key dir f env = JStr key)
  /\ (match f with
      | Holds saved =>
        saved !! "gemini_api_key" = None \/ saved !! "gemini_api_key" = Some (JStr [])
      | _ => True
      end ->
      get_api_key dir f env = JStr (default [] env)).
Proof.
  unfold get_api_key. split.
  - intros saved key -> Hk Hne. cbn [load_config]. unfold config in *.
    rewrite (lookup_union_Some_l _ _ _ _ Hk). cbn.
    destruct key; [congruence | reflexivity].
  - destruct f as [| |saved]; cbn [load_config]; intros H; try reflexivity.
    unfold config in *. destruct H as [H | H].
    + rewrite lookup_union_r by exact H. reflexivity.
    + rewrite (lookup_union_Some_l _ _ _ _ H). reflexivity.
Qed.

Lemma api_key_of_the_file_comes_first_witness :
  get_api_key (py "/Users/u/Documents/VoiceNote")
    (Holds {[ "gemini_api_key"%string := JStr (py "key-of-the-file") ]})
    (Some (py "key-of-the-environment"))
  = JStr (py "key-of-the-file")
  /\ get_api_key (py "/Users/u/Documents/VoiceNote") Unreadable
       (Some (py "key-of-the-environment"))
     = JStr (default [] (Some (py "key-of-the-environment"))).
Proof.
  split.
  - refine (proj1 (api_key_of_the_file_comes_first (py "/Users/u/Documents/VoiceNote")
                     (Holds {[ "gemini_api_key"%string := JStr (py "key-of-the-file") ]})
                     (Some (py "key-of-the-environment")))
              _ (py "key-of-the-file") eq_refl _ _);
      [vm_compute; reflexivity | vm_compute; discriminate].
  - exact (proj2 (api_key_of_the_file_comes_first (py "/Users/u/Documents/VoiceNote")
                    Unreadable (Some (py "key-of-the-environment"))) I).
Defined.

(** Opening the configuration from the menu loses no setting: the file that
    [open_config] writes yields, when it is loaded, the configuration that
    was loaded before, and opening it a second time writes the same file.  A
    file that is absent or cannot be read is replaced by the defaults. *)
Lemma open_config_round_trip (dir : text) (f : config_file) :
  load_config dir (open_config dir f) = load_config dir f
  /\ open_config dir (open_config dir f) = open_config dir f
  /\ (f = Absent \/ f = Unreadable -> open_config dir f = Holds (DEFAULT_CONFIG dir)).
Proof.
  assert (H : load_config dir (open_config dir f) = load_config dir f).
  { unfold open_config, save_config. cbn [load_config].
    destruct f as [| |saved]; cbn [load_config]; unfold config in *.
    - apply map_union_idemp.
    - apply map_union_idemp.
    - rewrite <- (map_union_assoc saved).
      rewrite (map_union_idemp (DEFAULT_CONFIG dir)). reflexivity. }
  split; [exact H|]. split.
  - unfold open_config at 1 3. rewrite H. reflexivity.
  - intros [-> | ->]; reflexivity.
Qed.

End ConfigFacts.

(** ** Runs of the session *)

Section RunFacts.
Import Session Formatters.

Ltac through_app :=
  cbn [title record_button_title status_item_title _recording _processing
       _transcriber_loading _transcriber _formatter recorder profile_store
       notifications clipboard pastes saved threads temp_files
       rec_recording _frames _stream
       set_title set_record_button_title set_status_item_title set_recording
       set_processing set_transcriber_loading set_transcriber set_formatter
       set_recorder set_profile_store set_notifications set_clipboard
       set_pastes set_saved set_threads set_temp_files
       _update_status notification fst snd].

Lemma cleanup_leaves (w : world) (filepath : text) (a : app) :
  output (cleanup w filepath a) = output a
  /\ notifications (cleanup w filepath a) = notifications a
  /\ status_item_title (cleanup w filepath a) = status_item_title a
  /\ _transcriber (cleanup w filepath a) = _transcriber a
  /\ _formatter (cleanup w filepath a) = _formatter a.
Proof.
  unfold cleanup. destruct filepath; [repeat split|].
  destruct (_ && _); repeat split.
Qed.

Lemma statuses_leave_all (log : list message) (a : app) :
  clipboard (fold_left (fun a m => _update_status m a) log a) = clipboard a
  /\ pastes (fold_left (fun a m => _update_status m a) log a) = pastes a
  /\ saved (fold_left (fun a m => _update_status m a) log a) = saved a
  /\ notifications (fold_left (fun a m => _update_status m a) log a) = notifications a
  /\ profile_store (fold_left (fun a m => _update_status m a) log a) = profile_store a.
Proof.
  revert a. induction log as [|m log IH]; intros a; [repeat split|].
  cbn [fold_left]. destruct (IH (_update_status m a)) as (H1 & H2 & H3 & H4 & H5).
  rewrite H1, H2, H3, H4, H5. repeat split.
Qed.

Lemma cleanup_leaves_store (w : world) (filepath : text) (a : app) :
  profile_store (cleanup w filepath a) = profile_store a.
Proof.
  unfold cleanup. destruct filepath; [reflexivity|].
  destruct (_ && _); reflexivity.
Qed.

(** X23.  What a run without remote formatter puts out: the transcript goes
    through the command processor, the offline formatter and the profile of
    the active application, in this order, and the result is what the
    clipboard holds afterwards, what is saved, and what the closing
    notification shows the first eighty characters of.  The paste keystroke
    is sent once when [auto_paste] is set, a file is saved when
    [save_markdown] is set, the status line reads idle at the end, and the
    profiles are left as [get_profile] left them. *)
Theorem run_puts_the_text_out (w : world) (audio_path raw path : text) (a : app)
    (profile : nat) (st : Profiles.store) :
  _transcriber a = Some (Transcriber true) ->
  _formatter a = None ->
  transcribe w audio_path = Ok raw ->
  is_blank raw = false ->
  Profiles.get_profile (profile_mgr w) None (active_app w) (profile_store a)
  = (profile, st) ->
  let text :=
    Profiles.apply_profile
      (fst (offline_format_text (VoiceCommands.process (voice_cmd w) raw) true))
      (default ∅ (Profiles.objs st !! profile)) in
  pyperclip_copy w text = Ok tt ->
  save w text = Ok path ->
  let a' := snd (_process_audio w audio_path a) in
  output a'
  = (Some text,
     if auto_paste w then S (pastes a) else pastes a,
     if save_markdown w then saved a ++ [path] else saved a)
  /\ notifications a'
     = notifications a
       ++ [(py "VoiceNote", py "書き起こし完了",
            if 80 <? length text then firstn 80 text ++ py "..." else firstn 80 text)]
  /\ status_item_title a' = Msg (py "待機中")
  /\ profile_store a' = st.
Proof.
  intros Hl Hf Ht Hb Hprof text Hpy Hsave. cbn zeta.
  set (d := default ∅ (Profiles.objs st !! profile)) in *.
  unfold _process_audio, try_finally, try_except, pipeline, do_transcribe.
  unfold mbind, M_bind, bind, get, lift, ret, of_result, mret, M_ret.
  rewrite Hl. through_app. rewrite Hl, Ht, Hb.
  unfold resolve_profile. through_app. rewrite Hprof. through_app.
  fold d.
  destruct (Profiles.get_str d "_app_name" []) as [|c0 name0];
    through_app; rewrite Hf;
    destruct (offline_format_text _ true) as [txt log] eqn:Hoff;
    cbn [fst] in text; subst text;
    unfold progress, lift, _copy_to_clipboard; rewrite Hpy;
    unfold lift, _paste_to_active_app, lift, _save_markdown;
    unfold mbind, M_bind, bind, of_result, lift, mret, M_ret, ret;
    rewrite Hsave;
    destruct (auto_paste w); destruct (save_markdown w);
    through_app;
    match goal with
    | |- context [cleanup w audio_path ?x] =>
      destruct (cleanup_leaves w audio_path x) as (H1 & H2 & H3 & _);
      rewrite H1, H2, H3, (cleanup_leaves_store w audio_path x)
    end;
    unfold output; through_app;
    match goal with
    | |- context [fold_left ?f log ?x] =>
      destruct (statuses_leave_all log x) as (K1 & K2 & K3 & K4 & K5);
      rewrite ?K1, ?K2, ?K3, ?K4, ?K5
    end;
    through_app; repeat split.
Qed.

Lemma run_puts_the_text_out_witness :
  let a := set_transcriber (Some (Transcriber true)) after_stop in
  let found :=
    Profiles.get_profile (profile_mgr calm_world) None (active_app calm_world)
      (profile_store a) in
  let text :=
    Profiles.apply_profile
      (fst (offline_format_text
              (VoiceCommands.process (voice_cmd calm_world) (py "改行 テスト")) true))
      (default ∅ (Profiles.objs (snd found) !! fst found)) in
  output (snd (_process_audio calm_world (py "/tmp/voicenote_1.wav") a))
  = (Some text,
     if auto_paste calm_world then S (pastes a) else pastes a,
     if save_markdown calm_world then saved a ++ [py "/out/note.md"] else saved a)
  /\ text = py "テスト".
Proof.
  intros a found text. split; [|vm_compute; reflexivity].
  refine (proj1 (run_puts_the_text_out calm_world (py "/tmp/voicenote_1.wav")
                   (py "改行 テスト") (py "/out/note.md") a (fst found) (snd found)
                   eq_refl eq_refl eq_refl _ _ eq_refl eq_refl)).
  - vm_compute. reflexivity.
  - apply surjective_pairing.
Defined.

(** X24.  A recording in which nothing was said puts nothing out: when the
    transcript is blank, the clipboard, the count of paste keystrokes and the
    list of saved files are as before the run, and the run ends with the
    notice that no speech was detected. *)
Theorem silence_puts_nothing_out (w : world) (audio_path raw : text) (a : app) :
  _transcriber a = Some (Transcriber true) ->
  transcribe w audio_path = Ok raw ->
  is_blank raw = true ->
  let a' := snd (_process_audio w audio_path a) in
  output a' = output a
  /\ notifications a'
     = notifications a ++ [(py "VoiceNote", [], py "音声が検出されませんでした。")]
  /\ status_item_title a' = Msg (py "音声が検出されませんでした").
Proof.
  intros Hl Ht Hb. cbn zeta.
  unfold _process_audio, try_finally, try_except, pipeline, do_transcribe.
  unfold mbind, M_bind, bind, get, lift, ret, of_result, mret, M_ret.
  rewrite Hl. cbn [_transcriber _update_status set_status_item_title].
  rewrite Hl, Ht, Hb. cbn [snd].
  match goal with |- context [cleanup w audio_path ?x] => set (a1 := x) end.
  destruct (cleanup_leaves w audio_path a1) as (H1 & H2 & H3 & _).
  rewrite H1, H2, H3. repeat split.
Qed.

Lemma silence_puts_nothing_out_witness :
  let w := World true true (VoiceCommands.init true []) (Profiles.init [] true)
             (py "large-v3") (py "/tmp/voicenote_1.wav")
             (Ok tt) (Ok tt) (fun _ => Ok (py " \n "))
             (py "Slack")
             (Remote (Ok tt) (Ok tt) (fun _ => Ok None) (fun _ => Ok None))
             (fun _ => Ok tt) (fun _ => Ok tt)
             (fun _ => Ok (py "/out/note.md")) (fun _ => true) in
  let a := set_transcriber (Some (Transcriber true)) after_stop in
  let a' := snd (_process_audio w (py "/tmp/voicenote_1.wav") a) in
  output a' = output a
  /\ notifications a'
     = notifications a ++ [(py "VoiceNote", [], py "音声が検出されませんでした。")]
  /\ status_item_title a' = Msg (py "音声が検出されませんでした").
Proof.
  intros w a.
  apply (silence_puts_nothing_out w (py "/tmp/voicenote_1.wav") (py " \n ") a);
    reflexivity.
Defined.

(** X25.  Every failure is reported: whichever step of the run raises, the
    thread ends without raising, the status line shows the error, and the
    last notification carries its message, cut after a hundred
    characters. *)
Theorem every_failure_is_reported (w : world) (audio_path : text) (a : app) (e : exn) :
  fst (pipeline w audio_path a) = Raise e ->
  let '(r, a') := _process_audio w audio_path a in
  r = Ok tt
  /\ status_item_title a' = Msg (py "エラー: " ++ str_of e)
  /\ notifications a'
     = notifications (snd (pipeline w audio_path a))
       ++ [(py "VoiceNote", py "エラー", firstn 100 (str_of e))].
Proof.
  intros H. unfold _process_audio, try_finally, try_except.
  destruct (pipeline w audio_path a) as [[[]|e'] a1]; cbn [fst snd] in *; [discriminate|].
  injection H as ->.
  unfold mbind, M_bind, bind, lift.
  match goal with |- context [cleanup w audio_path ?x] => set (a2 := x) end.
  destruct (cleanup_leaves w audio_path a2) as (_ & H2 & H3 & _).
  rewrite H2, H3. repeat split.
Qed.

Lemma every_failure_is_reported_witness :
  let '(r, a') := _process_audio failing_world (py "/tmp/voicenote_1.wav") after_stop in
  r = Ok tt
  /\ status_item_title a' = Msg (py "エラー: " ++ str_of (Error (py "decode failed")))
  /\ notifications a'
     = notifications (snd (pipeline failing_world (py "/tmp/voicenote_1.wav") after_stop))
       ++ [(py "VoiceNote", py "エラー", firstn 100 (str_of (Error (py "decode failed"))))].
Proof.
  refine (every_failure_is_reported failing_world (py "/tmp/voicenote_1.wav")
            after_stop (Error (py "decode failed")) _).
  vm_compute. reflexivity.
Defined.


Lemma do_transcribe_result (w : world) (audio_path raw : text) (a a' : app) :
  do_transcribe w audio_path a = (Ok raw, a') -> transcribe w audio_path = Ok raw.
Proof.
  unfold do_transcribe, mbind, M_bind, bind, get, lift, of_result, mret, M_ret, ret.
  match goal with |- context [let (r, a') := ?X in _] => destruct X as [[[]|e] a1] end;
    [|discriminate].
  destruct (transcribe w audio_path); [intros [= -> _]; reflexivity | discriminate].
Qed.

(** Two computations that start alike and go on alike are the same. *)
Lemma bind_ext {A B : Type} (m : M A) (f g : A -> M B) (a : app) :
  (forall x a', m a = (Ok x, a') -> f x a' = g x a') ->
  (m ≫= f) a = (m ≫= g) a.
Proof.
  intros H. unfold mbind, M_bind, bind.
  destruct (m a) as [[x|e] a']; [apply H; reflexivity | reflexivity].
Qed.

(** X26.  A text shorter than a hundred characters stays on the machine:
    when the transcript, once its commands are applied, has fewer than a
    hundred characters, the run is the same whatever the remote formatting
    service would answer; it is not asked. *)
Theorem short_texts_stay_local (w : world) (g : remote) (audio_path : text) (a : app) :
  (forall raw, transcribe w audio_path = Ok raw ->
               length (VoiceCommands.process (voice_cmd w) raw) < 100) ->
  _process_audio (with_gemini g w) audio_path a = _process_audio w audio_path a.
Proof.
  intros Hshort.
  assert (H : pipeline (with_gemini g w) audio_path a = pipeline w audio_path a).
  { unfold pipeline.
    change (do_load_model (with_gemini g w)) with (do_load_model w).
    change (do_transcribe (with_gemini g w)) with (do_transcribe w).
    change (resolve_profile (with_gemini g w)) with (resolve_profile w).
    change (voice_cmd (with_gemini g w)) with (voice_cmd w).
    change (auto_paste (with_gemini g w)) with (auto_paste w).
    change (save_markdown (with_gemini g w)) with (save_markdown w).
    change (_copy_to_clipboard (with_gemini g w)) with (_copy_to_clipboard w).
    change (_save_markdown (with_gemini g w)) with (_save_markdown w).
    apply bind_ext. intros t a1 _.
    apply bind_ext. intros [] a2 _.
    apply bind_ext. intros raw a3 Hraw.
    apply do_transcribe_result, Hshort, Nat.leb_gt in Hraw.
    destruct (is_blank raw); [reflexivity|].
    apply bind_ext. intros profile a4 _.
    apply bind_ext. intros d a5 _.
    apply bind_ext. intros [] a6 _.
    apply bind_ext. intros f a7 _.
    rewrite Hraw. reflexivity. }
  unfold _process_audio, try_finally, try_except. rewrite H. reflexivity.
Qed.

Lemma short_texts_stay_local_witness :
  _process_audio (with_gemini no_client calm_world) (py "/tmp/voicenote_1.wav")
    (set_formatter (Some (Formatter (py "key") (py "gemini-2.0-flash") false)) after_stop)
  = _process_audio calm_world (py "/tmp/voicenote_1.wav")
      (set_formatter (Some (Formatter (py "key") (py "gemini-2.0-flash") false)) after_stop).
Proof.
  apply (short_texts_stay_local calm_world no_client (py "/tmp/voicenote_1.wav")).
  intros raw H. vm_compute in H. injection H as <-. vm_compute. lia.
Defined.


Lemma statuses_leave (log : list message) (a : app) :
  clipboard (fold_left (fun a m => _update_status m a) log a) = clipboard a
  /\ pastes (fold_left (fun a m => _update_status m a) log a) = pastes a.
Proof.
  revert a. induction log as [|m log IH]; intros a; [split; reflexivity|].
  cbn [fold_left]. destruct (IH (_update_status m a)) as [H1 H2].
  rewrite H1, H2. split; reflexivity.
Qed.

Lemma cleanup_leaves_clipboard (w : world) (filepath : text) (a : app) :
  clipboard (cleanup w filepath a) = clipboard a
  /\ pastes (cleanup w filepath a) = pastes a.
Proof.
  unfold cleanup. destruct filepath; [split; reflexivity|].
  destruct (_ && _); split; reflexivity.
Qed.

Ltac through_setters :=
  cbn [clipboard pastes _formatter _transcriber profile_store
       set_title set_record_button_title set_status_item_title set_recording
       set_processing set_transcriber_loading set_transcriber set_formatter
       set_recorder set_profile_store set_notifications set_clipboard
       set_pastes set_saved set_threads set_temp_files
       _update_status notification snd].

(** X27.  When the clipboard cannot be written (pyperclip is missing and
    pbcopy fails), the failure is only printed and the run goes on: with
    [auto_paste] set, the paste keystroke is sent all the same, so that what
    is pasted is what the clipboard held before.  The run is one without a
    remote formatter and with the model loaded. *)
Theorem failed_copy_is_still_pasted (w : world) (audio_path raw : text) (a : app) :
  _transcriber a = Some (Transcriber true) ->
  _formatter a = None ->
  transcribe w audio_path = Ok raw ->
  is_blank raw = false ->
  auto_paste w = true ->
  (forall t, exists m, pyperclip_copy w t = Raise (ImportError m)) ->
  (forall t, exists e, pbcopy w t = Raise e) ->
  let a' := snd (_process_audio w audio_path a) in
  clipboard a' = clipboard a /\ pastes a' = S (pastes a).
Proof.
  intros Hl Hf Ht Hb Hp Hpy Hpb. cbn zeta.
  unfold _process_audio, try_finally, try_except, pipeline, do_transcribe.
  unfold mbind, M_bind, bind, get, lift, ret, of_result, mret, M_ret.
  rewrite Hl. through_setters. rewrite Hl, Ht, Hb.
  unfold resolve_profile.
  destruct (Profiles.get_profile _ _ _ _) as [profile st]. through_setters.
  destruct (Profiles.get_str _ "_app_name" []) as [|c0 name0];
    through_setters; rewrite Hf;
    destruct (offline_format_text _ true) as [txt log];
    unfold progress, lift, _copy_to_clipboard;
    match goal with
    | |- context [pyperclip_copy w ?T] =>
      destruct (Hpy T) as [m ->]; destruct (Hpb T) as [e ->]
    end;
    unfold ret; rewrite Hp; unfold _paste_to_active_app, lift;
    (destruct (save_markdown w);
     [unfold _save_markdown, mbind, M_bind, bind, of_result, lift, mret, M_ret, ret;
      destruct (save w _)|]);
    through_setters;
    match goal with
    | |- context [cleanup w audio_path ?x] =>
      destruct (cleanup_leaves_clipboard w audio_path x) as [-> ->]
    end;
    through_setters;
    match goal with
    | |- context [fold_left ?f log ?x] =>
      destruct (statuses_leave log x) as [-> ->]
    end;
    through_setters; split; reflexivity.
Qed.

Lemma failed_copy_is_still_pasted_witness :
  let w := World true true (VoiceCommands.init true []) (Profiles.init [] true)
             (py "large-v3") (py "/tmp/voicenote_1.wav")
             (Ok tt) (Ok tt) (fun _ => Ok (py "改行 テスト"))
             (py "Slack")
             (Remote (Ok tt) (Ok tt) (fun _ => Ok None) (fun _ => Ok None))
             (fun _ => Raise (ImportError (py "No module named pyperclip")))
             (fun _ => Raise (Error (py "pbcopy: timed out")))
             (fun _ => Ok (py "/out/note.md")) (fun _ => true) in
  let a := set_clipboard (Some (py "old"))
             (set_transcriber (Some (Transcriber true)) after_stop) in
  let a' := snd (_process_audio w (py "/tmp/voicenote_1.wav") a) in
  clipboard a' = clipboard a /\ pastes a' = S (pastes a).
Proof.
  intros w a.
  apply (failed_copy_is_still_pasted w (py "/tmp/voicenote_1.wav") (py "改行 テスト") a);
    try reflexivity.
  - intros t. eexists. reflexivity.
  - intros t. eexists. reflexivity.
Defined.

(** The state after the model has been loaded, or after loading it has
    failed with [e]. *)
Lemma preload_outcome (w : world) (a : app) :
  let a0 := set_transcriber (Some (Transcriber false))
              (_update_status (Msg (py "Whisperモデル読み込み中..."))
                 (set_transcriber_loading true a)) in
  match do_load_model w a0 with
  | (Ok _, a1) =>
    _preload_model_async w a
    = (Ok tt, set_transcriber_loading false (_update_status (Msg (py "待機中")) a1))
  | (Raise e, a1) =>
    _preload_model_async w a
    = (Ok tt,
       set_transcriber_loading false
         (_update_status (Msg (py "モデル読み込みエラー: " ++ str_of e)) a1))
  end.
Proof.
  cbn zeta. unfold _preload_model_async, try_finally, try_except.
  unfold mbind, M_bind, bind, lift.
  destruct (do_load_model w _) as [[[]|e] a1]; reflexivity.
Qed.

(** X28.  Loading the model in the background never raises and always
    ends with the loading flag cleared, so that the triggers it held back
    work again; it touches neither the recording flag nor the processing
    flag.  When the model has been loaded the transcriber is loaded and the
    status line reads idle; when loading has failed the status line shows the
    error and the transcriber is left unloaded, so that the next run tries
    again. *)
Theorem preload_always_clears_the_flag (w : world) (a : app) :
  let '(r, a') := _preload_model_async w a in
  r = Ok tt
  /\ _transcriber_loading a' = false
  /\ _recording a' = _recording a
  /\ _processing a' = _processing a
  /\ (import_whisper w = Ok tt -> new_model w = Ok tt ->
      _transcriber a' = Some (Transcriber true)
      /\ status_item_title a' = Msg (py "待機中"))
  /\ (forall e, import_whisper w = Raise e
                \/ (import_whisper w = Ok tt /\ new_model w = Raise e) ->
      _transcriber a' = Some (Transcriber false)
      /\ status_item_title a' = Msg (py "モデル読み込みエラー: " ++ str_of e)).
Proof.
  pose proof (preload_outcome w a) as H. cbn zeta in H.
  unfold do_load_model, mbind, M_bind, bind, lift, of_result in H.
  destruct (import_whisper w) as [[]|e1]; [destruct (new_model w) as [[]|e2]|];
    rewrite H; clear H; (split; [reflexivity|]); repeat (split; [reflexivity|]); split.
  - intros _ _. split; reflexivity.
  - intros e [He | [_ He]]; discriminate.
  - intros _ He. discriminate.
  - intros e [He | [_ He]]; [discriminate|]. injection He as <-. split; reflexivity.
  - intros He. discriminate.
  - intros e [He | [He _]]; [|discriminate]. injection He as <-. split; reflexivity.
Qed.

(** X29.  While the model is being loaded a trigger is turned away like one
    that comes while a transcript is processed: nothing changes but the list
    of notifications, and no recording starts.  The handler of the menu item
    that loads the model starts no second load then. *)
Theorem trigger_while_loading_is_rejected (w : world) (a : app) :
  _processing a = false ->
  _transcriber_loading a = true ->
  toggle_recording w a
  = set_notifications
      (notifications a
       ++ [(py "VoiceNote", [], py "モデルを読み込み中です。しばらくお待ちください。")]) a
  /\ phase_of (toggle_recording w a) = phase_of a
  /\ recorder (toggle_recording w a) = recorder a
  /\ threads (toggle_recording w a) = threads a
  /\ snd (preload_model a) = false
  /\ (forall d flags now,
        let '(_, a') := on_flags_changed w flags now (d, a) in
        a' = a \/ a' = toggle_recording w a).
Proof.
  intros Hp Hl.
  assert (Ht : toggle_recording w a
               = set_notifications
                   (notifications a
                    ++ [(py "VoiceNote", [],
                         py "モデルを読み込み中です。しばらくお待ちください。")]) a).
  { unfold toggle_recording. rewrite Hp, Hl. reflexivity. }
  split; [exact Ht|]. rewrite Ht.
  split; [reflexivity|]. split; [reflexivity|]. split; [reflexivity|]. split.
  - unfold preload_model. rewrite Hl.
    destruct (_transcriber a) as [[[]]|]; reflexivity.
  - intros d flags now. unfold on_flags_changed. cbn [fst snd].
    destruct (Gesture.flags_changed_callback d flags now) as [d' fired].
    destruct fired; [right; exact Ht | left; reflexivity].
Qed.

Lemma trigger_while_loading_is_rejected_witness :
  let a := set_transcriber_loading true (start_app None) in
  toggle_recording calm_world a
  = set_notifications
      (notifications a
       ++ [(py "VoiceNote", [], py "モデルを読み込み中です。しばらくお待ちください。")]) a
  /\ phase_of (toggle_recording calm_world a) = phase_of a.
Proof.
  intros a.
  destruct (trigger_while_loading_is_rejected calm_world a eq_refl eq_refl)
    as (H1 & H2 & _).
  split; assumption.
Defined.

Lemma feed_recorder (frames : list nat) :
  forall a,
    rec_recording (recorder a) = true ->
    feed frames a
    = set_recorder
        (AudioRecorder true (_frames (recorder a) ++ frames) (_stream (recorder a))) a.
Proof.
  unfold feed. induction frames as [|f frames IH]; intros a Hr.
  - cbn [fold_left]. rewrite app_nil_r. destruct a as [? ? ? ? ? ? ? ? r ? ? ? ? ? ? ?].
    destruct r. cbn in *. subst. reflexivity.
  - cbn [fold_left]. rewrite IH.
    + unfold _audio_callback. rewrite Hr. cbn. rewrite <- app_assoc. reflexivity.
    + unfold _audio_callback. rewrite Hr. reflexivity.
Qed.

(** X30.  From the idle state a trigger starts a recording and the next
    trigger ends it.  When frames have arrived in between, the second trigger
    leaves the session processing, with one more thread at work on the file
    that the recorder wrote; when none has arrived, the session is idle
    again, no thread is started, and the status line says that there is no
    recorded data. *)
Theorem trigger_starts_and_ends_a_recording (w : world) (a : app) (frames : list nat) :
  phase_of a = Idle ->
  _transcriber_loading a = false ->
  rec_recording (recorder a) = false ->
  tmp_name w <> [] ->
  let a1 := toggle_recording w a in
  let a2 := toggle_recording w (feed frames a1) in
  phase_of a1 = Capturing
  /\ title a1 = ICON_RECORDING
  /\ (frames = [] ->
      phase_of a2 = Idle /\ title a2 = ICON_IDLE /\ threads a2 = threads a
      /\ temp_files a2 = temp_files a
      /\ status_item_title a2 = Msg (py "録音データがありません"))
  /\ (frames <> [] ->
      phase_of a2 = Processing /\ title a2 = ICON_PROCESSING
      /\ threads a2 = threads a ++ [tmp_name w]
      /\ temp_files a2 = tmp_name w :: temp_files a)
  /\ _frames (recorder a2) = frames.
Proof.
  intros Hph Hl Hr Hne. cbn zeta.
  assert (Hp : _processing a = false /\ _recording a = false).
  { unfold phase_of in Hph. destruct (_processing a); [discriminate|].
    destruct (_recording a); [discriminate | split; reflexivity]. }
  destruct Hp as [Hp Hrec].
  assert (H1 : toggle_recording w a = _start_recording a).
  { unfold toggle_recording. rewrite Hp, Hl, Hrec. reflexivity. }
  rewrite H1. unfold _start_recording. through_app.
  unfold start. rewrite Hr.
  rewrite feed_recorder by reflexivity. through_app.
  unfold toggle_recording, phase_of. through_app.
  rewrite Hp, Hl. cbn [negb]. split; [reflexivity|]. split; [reflexivity|].
  unfold _stop_recording, stop. through_app. cbn [negb List.app].
  destruct frames as [|f frames].
  - split; [|split; [congruence | reflexivity]]. intros _.
    through_app. rewrite Hp. repeat split.
  - destruct (tmp_name w) as [|c n] eqn:E; [congruence|]. through_app.
    split; [congruence|]. split; [|reflexivity]. intros _. repeat split.
Qed.

Lemma trigger_starts_and_ends_a_recording_witness :
  let a1 := toggle_recording calm_world (start_app None) in
  let a2 := toggle_recording calm_world (feed [1; 2] a1) in
  phase_of a1 = Capturing /\ phase_of a2 = Processing
  /\ threads a2 = [tmp_name calm_world].
Proof.
  intros a1 a2.
  destruct (trigger_starts_and_ends_a_recording calm_world (start_app None) [1; 2])
    as (H1 & _ & _ & H4 & _);
    [reflexivity | reflexivity | reflexivity | vm_compute; discriminate |].
  destruct H4 as (H5 & _ & H6 & _); [discriminate|].
  split; [exact H1|]. split; [exact H5 | exact H6].
Defined.

End RunFacts.
